(** * scripts/rpm_owners/set_github_code_owners.py

    A shallow embedding of the script that keeps the [.github/CODEOWNERS]
    file of every repository of the [xcp-ng-rpms] organisation in line with
    the maintainer recorded in [packages.json].

    Python strings are sequences of Unicode code points.  What the
    interpreter decides from its Unicode database (the class of a code point
    outside ASCII, its lower-case form) and what [difflib] computes are taken
    as parameters, gathered in [PyLib]; everything on ASCII is computed. *)

From Stdlib Require Import NArith ZArith Ascii String.
From Equations Require Import Equations.
From stdpp Require Import base option list gmap.

Local Open Scope N_scope.

(** ** Strings *)

(** A [str]: the list of its code points. *)
Abbreviation pystr := (list N).

(** A literal, written as a Rocq string of ASCII characters. *)
Definition py (s : string) : pystr := N_of_ascii <$> list_ascii_of_string s.

Arguments py : simpl never.

(** The line feed, ['\n']. *)
Definition LF : N := 10.
Definition nl : pystr := [LF].

(** [sep.join(parts)]. *)
Fixpoint str_join (sep : pystr) (parts : list pystr) : pystr :=
  match parts with
  | [] => []
  | [p] => p
  | p :: rest => p ++ sep ++ str_join sep rest
  end.

(** The code points at which [str.splitlines] ends a line. *)
Definition is_linebreak (c : N) : bool :=
  bool_decide (c ∈ [10; 11; 12; 13; 28; 29; 30; 133; 8232; 8233]).

(** [s.splitlines()]: the lines of [s] without their terminators; a carriage
    return followed by a line feed ends one line; no empty last line. *)
Fixpoint splitlines_from (line : pystr) (s : pystr) : list pystr :=
  match s with
  | [] => match line with [] => [] | _ => [reverse line] end
  | c :: s' =>
      if is_linebreak c then
        reverse line ::
          match s' with
          | d :: s'' => if (c =? 13) && (d =? 10) then splitlines_from [] s''
                        else splitlines_from [] s'
          | [] => splitlines_from [] s'
          end
      else splitlines_from (c :: line) s'
  end.

Definition splitlines (s : pystr) : list pystr := splitlines_from [] s.

(** ** What the interpreter and its library supply *)

Record PyLib := {
  (** [Py_UNICODE_ISALNUM] on a code point outside ASCII. *)
  uni_isalnum : N → bool;
  (** The lower-case form of the code point at index [i] of [s], outside
      ASCII; it may be several code points and may depend on the
      neighbours (the final sigma). *)
  uni_lower_at : pystr → nat → N → pystr;
  (** [difflib.unified_diff(a, b, fromfile, tofile, lineterm=...)], as a
      list of lines. *)
  unified_diff : list pystr → list pystr → pystr → pystr → pystr → list pystr;
  (** The order in which a [for] loop meets the elements of a [set]. *)
  set_iter : gset pystr → list pystr
}.

(** A library that knows ASCII only: enough to run the script on ASCII
    registries. Its diff shows the two sides in full. *)
Definition ascii_lib : PyLib := {|
  uni_isalnum := λ _, false;
  uni_lower_at := λ _ _ c, [c];
  unified_diff := λ a b fromfile tofile lineterm,
    (py "--- " ++ fromfile ++ lineterm) :: (py "+++ " ++ tofile ++ lineterm) ::
    ((λ l, py "-" ++ l ++ lineterm) <$> a) ++ ((λ l, py "+" ++ l ++ lineterm) <$> b);
  set_iter := elements
|}.

Section Strings.
Variable L : PyLib.

Definition ascii_isalnum (c : N) : bool :=
  (48 <=? c) && (c <=? 57) || (65 <=? c) && (c <=? 90) || (97 <=? c) && (c <=? 122).

Definition ascii_lower (c : N) : N :=
  if (65 <=? c) && (c <=? 90) then c + 32 else c.

(** [\w] of a [str] pattern: alphanumeric or the underscore. *)
Definition is_word (c : N) : bool :=
  (c =? 95) || (if c <? 128 then ascii_isalnum c else uni_isalnum L c).

(** [s.lower()]. *)
Definition str_lower (s : pystr) : pystr :=
  concat (imap (λ i c, if c <? 128 then [ascii_lower c] else uni_lower_at L s i c) s).

(** The pattern [\W+] tried at the head of [s]: the repetition is greedy,
    so the match takes every non-word code point up to the first word one.
    The result is the length of the match, [0%nat] when there is none. *)
Fixpoint match_nonword_plus (s : pystr) : nat :=
  match s with
  | c :: s' => if is_word c then 0%nat else S (match_nonword_plus s')
  | [] => 0%nat
  end.

(** [re.sub(r'\W+', repl, s)]: scan from the left; where the pattern
    matches put [repl] and go on after the match, elsewhere copy one code
    point. *)
Equations? re_sub_nonword_plus (repl s : pystr) : pystr by wf (length s) lt :=
  re_sub_nonword_plus repl [] := [];
  re_sub_nonword_plus repl (c :: s') with match_nonword_plus (c :: s') := {
    | O => c :: re_sub_nonword_plus repl s'
    | S n => repl ++ re_sub_nonword_plus repl (drop n s') }.
Proof. all: cbn [length]; try rewrite length_drop; lia. Qed.

Definition to_gh_team (maintainer : pystr) : pystr :=
  py "@xcp-ng-rpms/" ++ re_sub_nonword_plus (py "-") (str_lower maintainer).

(** *** The handle as the specification words it *)

(** The maximal runs of [s]: consecutive code points of one class, word
    ([true]) or not, each run as long as it can be. *)
Fixpoint runs (s : pystr) : list (bool * pystr) :=
  match s with
  | [] => []
  | c :: s' =>
      match runs s' with
      | (w, r) :: rs =>
          if bool_decide (is_word c = w) then (w, c :: r) :: rs
          else (is_word c, [c]) :: (w, r) :: rs
      | [] => [(is_word c, [c])]
      end
  end.

(** A run of word code points stays, any other becomes one hyphen. *)
Definition hyphenate (run : bool * pystr) : pystr :=
  if run.1 then run.2 else py "-".

Definition spec_team_handle (maintainer : pystr) : pystr :=
  py "@xcp-ng-rpms/" ++ concat (hyphenate <$> runs (str_lower maintainer)).

End Strings.


(** ** Registry records and exceptions *)

(** A value read from [packages.json]: a string, or anything else JSON can
    hold (a number, a list, null ...), which has no [lower] method. *)
Inductive pyval :=
| VStr (s : pystr)
| VOther.

#[global] Instance pyval_eq_dec : EqDecision pyval.
Proof. solve_decision. Defined.

(** The exceptions that reach the script. [UnknownObjectException] is the
    remote client's "object not found"; [RemoteError] stands for every other
    failure of the remote layer. *)
Inductive exn :=
| UnknownObjectException
| RemoteError (code : N)
| KeyError (key : pystr)
| AttributeError.

Abbreviation result A := (exn + A)%type.

Definition BRANCHES : list pystr := [py "master"].
Definition CODEOWNERS : pystr := py ".github/CODEOWNERS".
Arguments BRANCHES : simpl never.
Arguments CODEOWNERS : simpl never.

Section Content.
Variable L : PyLib.

(** Lines 43-46: the list [owners]. *)
Definition owners_of (rpm : gmap pystr pyval) : result (list pyval) :=
  match rpm !! py "maintainer" with
  | None => inl (KeyError (py "maintainer"))
  | Some maintainer =>
      let owners := [maintainer] in
      inr (if negb (bool_decide (VStr (py "OS Platform & Release") ∈ owners))
           then owners ++ [VStr (py "OS Platform & Release")]
           else owners)
  end.

(** [to_gh_team(owner) for owner in owners], consumed from the left. *)
Fixpoint teams_of (owners : list pyval) : result (list pystr) :=
  match owners with
  | [] => inr []
  | VStr owner :: rest =>
      match teams_of rest with
      | inr teams => inr (to_gh_team L owner :: teams)
      | inl e => inl e
      end
  | VOther :: _ => inl AttributeError
  end.

(** Line 47: the string [content]. *)
Definition content_of (rpm : gmap pystr pyval) : result pystr :=
  match owners_of rpm with
  | inl e => inl e
  | inr owners =>
      match teams_of owners with
      | inl e => inl e
      | inr teams => inr (py "* " ++ str_join (py " ") teams ++ nl)
      end
  end.

(** [diff(current, expected)]. *)
Definition diff (current : option pystr) (expected : pystr) : pystr :=
  str_join nl
    (unified_diff L
       (match current with Some c => splitlines c | None => [] end)
       (splitlines expected)
       (py "current/" ++ CODEOWNERS)
       (py "expected/" ++ CODEOWNERS)
       []).

End Content.

(** ** The remote platform *)

(** What [repo.get_contents] returns; reading either attribute may raise. *)
Record ContentFile := {
  sha : result pystr;
  decoded_content : result pystr
}.

(** The three methods of a repository handle the script calls, over the
    state [W] of the platform. *)
Record Remote (Repo W : Type) := {
  get_contents : Repo → pystr → pystr → W → result ContentFile * W;
  create_file : Repo → pystr → pystr → pystr → pystr → W → result unit * W;
  update_file : Repo → pystr → pystr → pystr → pystr → pystr → W → result unit * W
}.
Arguments get_contents {Repo W}.
Arguments create_file {Repo W}.
Arguments update_file {Repo W}.

(** The arm of the [if] chain a branch went through (the specification's
    reconciliation outcome). *)
Inductive outcome := Created | Updated | AlreadyMatching | ConflictReported.

#[global] Instance outcome_eq_dec : EqDecision outcome.
Proof. solve_decision. Defined.

(** What a run does, in order: the remote calls it issues (recorded when the
    call is made, whatever it returns), the text it prints, and a mark
    [Ended] when the body of the branch loop reaches the end of an arm. *)
Inductive event (Repo : Type) :=
| Get_contents (repo : Repo) (path ref : pystr)
| Create_file (repo : Repo) (path message content branch : pystr)
| Update_file (repo : Repo) (path message content sha branch : pystr)
| Stderr (text : pystr)
| Stdout (text : pystr)
| Ended (pkg branch : pystr) (o : outcome).
Arguments Get_contents {Repo}.
Arguments Create_file {Repo}.
Arguments Update_file {Repo}.
Arguments Stderr {Repo}.
Arguments Stdout {Repo}.
Arguments Ended {Repo}.

Definition is_write {Repo} (e : event Repo) : bool :=
  match e with
  | Create_file _ _ _ _ _ | Update_file _ _ _ _ _ _ => true
  | _ => false
  end.

(** The remote writes of a trace. *)
Definition writes {Repo} (t : list (event Repo)) : list (event Repo) :=
  filter (λ e, is_write e = true) t.

(** ** Computations

    A computation starts in a state of the platform and gives a value or an
    exception, the state it leaves, and the events it produced. An exception
    keeps what happened before it. *)
Section Monad.
Context {Repo W : Type}.

Definition M (A : Type) : Type := W → result A * W * list (event Repo).

Definition ret {A} (a : A) : M A := λ w, (inr a, w, []).

Definition bind {A B} (m : M A) (f : A → M B) : M B := λ w,
  match m w with
  | (inl e, w1, t1) => (inl e, w1, t1)
  | (inr a, w1, t1) => let '(r, w2, t2) := f a w1 in (r, w2, t1 ++ t2)
  end.

#[global] Instance M_ret : MRet M := @ret.
#[global] Instance M_bind : MBind M := λ A B f m, bind m f.

Definition raise {A} (e : exn) : M A := λ w, (inl e, w, []).

Definition lift {A} (r : result A) : M A := λ w, (r, w, []).

Definition emit (e : event Repo) : M unit := λ w, (inr tt, w, [e]).

(** A remote call: the event, then whatever the platform answers. *)
Definition call {A} (e : event Repo) (op : W → result A * W) : M A := λ w,
  let '(r, w1) := op w in (r, w1, [e]).

(** [m] with its exception, if any, handed over as a value. *)
Definition try {A} (m : M A) : M (result A) := λ w,
  let '(r, w1, t1) := m w in (inr r, w1, t1).

(** Leaving a [with suppress(gh.UnknownObjectException)] block on exception
    [e], the local variables being [locals]. *)
Definition suppress_unknown {A} (e : exn) (locals : A) : M A :=
  match e with
  | UnknownObjectException => ret locals
  | _ => raise e
  end.

(** [print(text, end=end_, file=sys.stderr)] and the same on [sys.stdout]. *)
Definition print_stderr (text end_ : pystr) : M unit := emit (Stderr (text ++ end_)).
Definition print_stdout (text end_ : pystr) : M unit := emit (Stdout (text ++ end_)).

End Monad.


Section Reconciler.
Context {Repo W : Type}.
Variable R : Remote Repo W.
Variable L : PyLib.
(** The committer's name and e-mail, read from [git config] at start-up. *)
Variables USER EMAIL : pystr.

Definition MESSAGE : pystr :=
  py "Set team owner" ++ nl ++ nl ++
  py "Signed-off-by: " ++ USER ++ py " <" ++ EMAIL ++ py ">" ++ nl.

Arguments MESSAGE : simpl never.

(** Lines 50-55: the two locals [(current_content, current_content_sha)]
    after the [with suppress(gh.UnknownObjectException)] block. *)
Definition read_codeowners (repo : Repo) (branch : pystr) : M (option pystr * pystr) :=
  let current_content := None in
  let current_content_sha := [] in
  r ← try (call (Get_contents repo CODEOWNERS branch)
                (get_contents R repo CODEOWNERS branch));
  match r with
  | inl e => suppress_unknown e (current_content, current_content_sha)
  | inr gh_content =>
      match sha gh_content with
      | inl e => suppress_unknown e (current_content, current_content_sha)
      | inr current_content_sha =>
          match decoded_content gh_content with
          | inl e => suppress_unknown e (current_content, current_content_sha)
          | inr current_content => mret (Some current_content, current_content_sha)
          end
      end
  end.

(** Lines 50-69: the body of [for branch in BRANCHES], from the value of
    [ok] before it to the value after. [pkg] is the module's loop variable,
    which the messages read. *)
Definition reconcile_branch (pkg : pystr) (repo : Repo) (content : pystr)
    (force ok : bool) (branch : pystr) : M bool :=
  '(current_content, current_content_sha) ← read_codeowners repo branch;
  match current_content with
  | None =>
      print_stderr (py "creating " ++ pkg ++ py " CODEOWNERS file in " ++ branch ++ py "...") [];;
      call (Create_file repo CODEOWNERS MESSAGE content branch)
           (create_file R repo CODEOWNERS MESSAGE content branch);;
      print_stderr (py " done") nl;;
      emit (Ended pkg branch Created);;
      mret ok
  | Some current =>
      if force && negb (bool_decide (current = content)) then
        print_stderr (py "updating " ++ pkg ++ py " CODEOWNERS file in " ++ branch ++ py "...") [];;
        call (Update_file repo CODEOWNERS MESSAGE content current_content_sha branch)
             (update_file R repo CODEOWNERS MESSAGE content current_content_sha branch);;
        print_stderr (py " done") nl;;
        emit (Ended pkg branch Updated);;
        mret ok
      else if bool_decide (current = content) then
        print_stderr (pkg ++ py " CODEOWNERS is already OK in " ++ branch) nl;;
        emit (Ended pkg branch AlreadyMatching);;
        mret ok
      else
        print_stderr (py "error: " ++ pkg ++ py " CODEOWNERS is not synced in " ++ branch) nl;;
        print_stdout (diff L current_content content) nl;;
        emit (Ended pkg branch ConflictReported);;
        mret false
  end.

Fixpoint for_branches (pkg : pystr) (repo : Repo) (content : pystr) (force : bool)
    (branches : list pystr) (ok : bool) : M bool :=
  match branches with
  | [] => mret ok
  | branch :: rest =>
      ok ← reconcile_branch pkg repo content force ok branch;
      for_branches pkg repo content force rest ok
  end.

Definition set_gh_code_owners (pkg : pystr) (repo : Repo) (rpm : gmap pystr pyval)
    (force : bool) : M bool :=
  content ← lift (content_of L rpm);
  for_branches pkg repo content force BRANCHES true.

(** [d[key]] on a [dict]. *)
Definition getitem {V} (d : gmap pystr V) (key : pystr) : result V :=
  match d !! key with
  | Some v => inr v
  | None => inl (KeyError key)
  end.

(** Lines 100-103: the loop over the packages, in the order [pkgs]. *)
Fixpoint for_pkgs (force : bool) (rpms : gmap pystr (gmap pystr pyval))
    (gh_repos : gmap pystr Repo) (pkgs : list pystr) (ok : bool) : M bool :=
  match pkgs with
  | [] => mret ok
  | pkg :: rest =>
      repo ← lift (getitem gh_repos pkg);
      rpm ← lift (getitem rpms pkg);
      r ← set_gh_code_owners pkg repo rpm force;
      for_pkgs force rpms gh_repos rest (ok && r)
  end.

(** The exit status of the process: [0] when the script runs off its end,
    [1] on [exit(1)] and on an uncaught exception. *)
Definition exit_status (r : result bool) : Z :=
  match r with
  | inr true => 0
  | inr false => 1
  | inl _ => 1
  end.

(** Lines 97-105, once the registry and the repositories are loaded. *)
Definition main (force : bool) (rpms : gmap pystr (gmap pystr pyval))
    (gh_repos : gmap pystr Repo) (w : W) : Z * W * list (event Repo) :=
  let pkgs : gset pystr := dom gh_repos ∩ dom rpms in
  let '(ok, w', t) := for_pkgs force rpms gh_repos (set_iter L pkgs) true w in
  (exit_status ok, w', t).

(** The remote keeps what was written: after a write that returned, reading
    the same path on the same branch yields the written content. *)
Record keeps_writes : Prop := {
  read_after_create : ∀ repo path message content branch w w',
    create_file R repo path message content branch w = (inr tt, w') →
    ∃ s w'', get_contents R repo path branch w' =
               (inr {| sha := inr s; decoded_content := inr content |}, w'');
  read_after_update : ∀ repo path message content token branch w w',
    update_file R repo path message content token branch w = (inr tt, w') →
    ∃ s w'', get_contents R repo path branch w' =
               (inr {| sha := inr s; decoded_content := inr content |}, w'')
}.

End Reconciler.

(** ** A platform to run the script against

    Repositories are numbered; the platform holds, per repository, branch and
    path, a blob identifier and a content. A file is created only where none
    is, and updated only against its current blob identifier. *)
Definition blob_sha (content : pystr) : pystr := py "blob:" ++ content.

Definition store_remote : Remote N (gmap (N * pystr * pystr) (pystr * pystr)) := {|
  get_contents repo path ref w :=
    match w !! (repo, ref, path) with
    | Some (s, c) => (inr {| sha := inr s; decoded_content := inr c |}, w)
    | None => (inl UnknownObjectException, w)
    end;
  create_file repo path message content branch w :=
    match w !! (repo, branch, path) with
    | Some _ => (inl (RemoteError 422), w)
    | None => (inr tt, <[(repo, branch, path) := (blob_sha content, content)]> w)
    end;
  update_file repo path message content token branch w :=
    match w !! (repo, branch, path) with
    | Some (s, _) =>
        if bool_decide (s = token)
        then (inr tt, <[(repo, branch, path) := (blob_sha content, content)]> w)
        else (inl (RemoteError 409), w)
    | None => (inl UnknownObjectException, w)
    end
|}.

(** A registry of one package and the organisation's repository of that
    name; the content expected there; a platform on which the file already
    says something else. *)
Definition demo_rpms : gmap pystr (gmap pystr pyval) :=
  {[ py "xen" := {[ py "maintainer" := VStr (py "Hypervisor & Kernel") ]} ]}.

Definition demo_repos : gmap pystr N := {[ py "xen" := 7 ]}.

Definition demo_content : pystr :=
  py "* @xcp-ng-rpms/hypervisor-kernel @xcp-ng-rpms/os-platform-release" ++ nl.

Definition demo_diverged : gmap (N * pystr * pystr) (pystr * pystr) :=
  {[ (7, py "master", CODEOWNERS) :=
       (blob_sha (py "* @xcp-ng-rpms/other" ++ nl), py "* @xcp-ng-rpms/other" ++ nl) ]}.

(** The number of places of [hay] at which [needle] starts. *)
Fixpoint occurrences (needle hay : pystr) : nat :=
  (if bool_decide (needle `prefix_of` hay) then 1 else 0)%nat +
  match hay with
  | [] => 0%nat
  | _ :: hay' => occurrences needle hay'
  end.

(** The content a write event carries. *)
Definition written_content {Repo} (e : event Repo) : option pystr :=
  match e with
  | Create_file _ _ _ content _ | Update_file _ _ _ content _ _ => Some content
  | _ => None
  end.

(** The marks [Ended] of a trace, in order. *)
Definition ended {Repo} (t : list (event Repo)) : list (pystr * pystr * outcome) :=
  omap (λ e, match e with Ended pkg branch o => Some (pkg, branch, o) | _ => None end) t.

(** A branch that did not end in a reported conflict. *)
Definition clean (x : pystr * pystr * outcome) : bool :=
  negb (bool_decide (x.2 = ConflictReported)).

(** The code points a handle is made of: lower-case letters, digits, the
    underscore and the hyphen. *)
Definition handle_char (c : N) : bool :=
  (97 <=? c) && (c <=? 122) || (48 <=? c) && (c <=? 57) || (c =? 95) || (c =? 45).

(** A string in which no hyphen follows a hyphen. *)
Definition no_double_hyphen (s : pystr) : Prop :=
  ∀ i, s !! i = Some 45 → s !! S i ≠ Some 45.

(** Kinds of events. *)
Definition is_read {Repo} (e : event Repo) : bool :=
  match e with Get_contents _ _ _ => true | _ => false end.

Definition is_update {Repo} (e : event Repo) : bool :=
  match e with Update_file _ _ _ _ _ _ => true | _ => false end.

Definition is_stdout {Repo} (e : event Repo) : bool :=
  match e with Stdout _ => true | _ => false end.

(** [e] is a remote call, on the ownership file of the branch [master] of
    [repo], and if a write, one of [content] with the commit message
    [message]. *)
Definition call_on {Repo} (repo : Repo) (message content : pystr) (e : event Repo) : Prop :=
  match e with
  | Get_contents r path ref => r = repo ∧ path = CODEOWNERS ∧ ref = py "master"
  | Create_file r path m c branch =>
      r = repo ∧ path = CODEOWNERS ∧ m = message ∧ c = content ∧ branch = py "master"
  | Update_file r path m c _ branch =>
      r = repo ∧ path = CODEOWNERS ∧ m = message ∧ c = content ∧ branch = py "master"
  | _ => False
  end.

(** A remote on which reading changes nothing and a write to one repository
    leaves what is read from the others as it was. *)
Record isolates_repos {Repo W} (R : Remote Repo W) : Prop := {
  read_pure : ∀ repo path ref w, (get_contents R repo path ref w).2 = w;
  create_frame : ∀ repo path message content branch w w' repo' path' ref',
    create_file R repo path message content branch w = (inr tt, w') → repo' ≠ repo →
    (get_contents R repo' path' ref' w').1 = (get_contents R repo' path' ref' w).1;
  update_frame : ∀ repo path message content token branch w w' repo' path' ref',
    update_file R repo path message content token branch w = (inr tt, w') → repo' ≠ repo →
    (get_contents R repo' path' ref' w').1 = (get_contents R repo' path' ref' w).1
}.

(** The platform holds for the package [pkg] the content expected of it:
    reading the ownership file of [master] in its repository yields the
    content derived from its record. *)
Definition in_sync {Repo W} (R : Remote Repo W) (L : PyLib)
    (rpms : gmap pystr (gmap pystr pyval)) (gh_repos : gmap pystr Repo)
    (w : W) (pkg : pystr) : Prop :=
  ∃ repo rpm content token,
    gh_repos !! pkg = Some repo ∧ rpms !! pkg = Some rpm ∧
    content_of L rpm = inr content ∧
    (get_contents R repo CODEOWNERS (py "master") w).1 =
      inr {| sha := inr token; decoded_content := inr content |}.

(** * Properties *)

Section StringFacts.
Variable L : PyLib.

Lemma re_sub_word repl c s :
  is_word L c = true →
  re_sub_nonword_plus L repl (c :: s) = c :: re_sub_nonword_plus L repl s.
Proof.
  intros Hc. simp re_sub_nonword_plus. cbn [match_nonword_plus].
  rewrite Hc. reflexivity.
Qed.

Lemma re_sub_nonword repl c s :
  is_word L c = false →
  re_sub_nonword_plus L repl (c :: s) =
    repl ++ re_sub_nonword_plus L repl (drop (match_nonword_plus L s) s).
Proof.
  intros Hc. simp re_sub_nonword_plus. cbn [match_nonword_plus].
  rewrite Hc. reflexivity.
Qed.

(** The first run of a non-empty string starts with its first code point
    and has its class. *)
Lemma runs_head c s : ∃ r rs, runs L (c :: s) = (is_word L c, c :: r) :: rs.
Proof.
  cbn [runs]. destruct (runs L s) as [|[w r] rs]; [by eexists _, _|].
  case_bool_decide as Hw; [subst w|]; by eexists _, _.
Qed.

Lemma runs_concat s : concat ((λ run, run.2) <$> runs L s) = s.
Proof.
  induction s as [|c s IH]; [done|]. cbn [runs].
  destruct (runs L s) as [|[w r] rs]; [by inversion IH|].
  case_bool_decide; cbn in *; by rewrite IH.
Qed.

Lemma runs_uniform s :
  Forall (λ run, run.2 ≠ [] ∧ Forall (λ c, is_word L c = run.1) run.2) (runs L s).
Proof.
  induction s as [|c s IH]; [constructor|]. cbn [runs].
  destruct (runs L s) as [|[w r] rs].
  - repeat constructor; done.
  - inversion IH as [|? ? [Hne Hr] Hrs]; subst.
    case_bool_decide as Hw.
    + constructor; [|done]. split; [done|]. by constructor.
    + constructor; [|by constructor]. split; [done|]. by repeat constructor.
Qed.

Lemma runs_alternate s i a b :
  runs L s !! i = Some a → runs L s !! S i = Some b → a.1 ≠ b.1.
Proof.
  revert i a b. induction s as [|c s IH]; intros i a b; [done|]. cbn [runs].
  destruct (runs L s) as [|[w r] rs] eqn:E; [by destruct i|].
  case_bool_decide as Hw.
  - destruct i as [|i]; cbn.
    + intros [= <-] Hb. by apply (IH 0%nat (w, r) b).
    + intros Ha Hb. by apply (IH (S i) a b).
  - destruct i as [|i]; cbn.
    + by intros [= <-] [= <-].
    + intros Ha Hb. by apply (IH i a b).
Qed.

Lemma hyphenate_runs_word c s :
  is_word L c = true →
  concat (hyphenate <$> runs L (c :: s)) = c :: concat (hyphenate <$> runs L s).
Proof.
  intros Hc. cbn [runs]. destruct (runs L s) as [|[w r] rs].
  - cbn. unfold hyphenate. cbn. by rewrite Hc.
  - case_bool_decide as Hw; cbn; unfold hyphenate; cbn.
    + subst w. by rewrite Hc.
    + rewrite Hc. done.
Qed.

Lemma hyphenate_runs_nonword c s :
  is_word L c = false →
  concat (hyphenate <$> runs L (c :: s)) =
    py "-" ++ concat (hyphenate <$> runs L (drop (match_nonword_plus L s) s)).
Proof.
  revert c. induction s as [|d s IH]; intros c Hc.
  - cbn. unfold hyphenate. cbn. by rewrite Hc.
  - destruct (is_word L d) eqn:Hd.
    + cbn [match_nonword_plus]. rewrite Hd. cbn [drop].
      destruct (runs_head d s) as (r & rs & E).
      change (runs L (c :: d :: s)) with
        (match runs L (d :: s) with
         | (w, r) :: rs =>
             if bool_decide (is_word L c = w) then (w, c :: r) :: rs
             else (is_word L c, [c]) :: (w, r) :: rs
         | [] => [(is_word L c, [c])]
         end).
      rewrite E, Hd, Hc. rewrite bool_decide_eq_false_2 by done.
      cbn. unfold hyphenate at 1. done.
    + cbn [match_nonword_plus]. rewrite Hd. cbn [drop].
      rewrite <- (IH d Hd).
      destruct (runs_head d s) as (r & rs & E).
      change (runs L (c :: d :: s)) with
        (match runs L (d :: s) with
         | (w, r) :: rs =>
             if bool_decide (is_word L c = w) then (w, c :: r) :: rs
             else (is_word L c, [c]) :: (w, r) :: rs
         | [] => [(is_word L c, [c])]
         end).
      rewrite E, Hd, Hc. rewrite bool_decide_eq_true_2 by done.
      cbn. done.
Qed.

(** Substituting a hyphen for every match of [\W+] is replacing every
    maximal non-word run by a hyphen. *)
Lemma re_sub_runs s :
  re_sub_nonword_plus L (py "-") s = concat (hyphenate <$> runs L s).
Proof.
  remember (length s) as n eqn:Hn. revert s Hn.
  induction n as [n IH] using lt_wf_ind. intros [|c s] Hn; [done|].
  cbn [length] in Hn. destruct (is_word L c) eqn:Hc.
  - rewrite re_sub_word, hyphenate_runs_word by done.
    f_equal. apply (IH (length s)); [lia|done].
  - rewrite re_sub_nonword, hyphenate_runs_nonword by done.
    f_equal. eapply IH; [|done]. rewrite length_drop. lia.
Qed.

(** A handle holds word code points and hyphens after its prefix. *)
Lemma re_sub_chars s :
  Forall (λ c, is_word L c = true ∨ c = 45) (re_sub_nonword_plus L (py "-") s).
Proof.
  rewrite re_sub_runs. apply Forall_concat, Forall_fmap.
  eapply Forall_impl; [apply runs_uniform|]. intros [w r] [_ Hr]; cbn in *.
  unfold hyphenate; cbn. destruct w.
  - eapply Forall_impl; [exact Hr|]. intros ? ?. by left.
  - constructor; [by right|constructor].
Qed.

Lemma to_gh_team_no_LF m : LF ∉ to_gh_team L m.
Proof.
  unfold to_gh_team. rewrite elem_of_app. intros [H|H].
  - revert H. by apply (bool_decide_unpack _).
  - pose proof (re_sub_chars (str_lower L m)) as Hall.
    rewrite Forall_forall in Hall. destruct (Hall _ H) as [Hw|Hw]; by vm_compute in Hw.
Qed.

End StringFacts.

(** ** Running the reconciler *)

Section Runs.
Context {Repo W : Type}.
Variable R : Remote Repo W.
Variable L : PyLib.
Variables USER EMAIL : pystr.

Lemma bind_run {A B} (m : @M Repo W A) (f : A → M B) w :
  (m ≫= f) w =
    match m w with
    | (inl e, w1, t1) => (inl e, w1, t1)
    | (inr a, w1, t1) => let '(r, w2, t2) := f a w1 in (r, w2, t1 ++ t2)
    end.
Proof. reflexivity. Qed.

(** The read block as a function of what [get_contents] answers. *)
Lemma read_codeowners_run repo branch w :
  read_codeowners R repo branch w =
    let '(r, w1) := get_contents R repo CODEOWNERS branch w in
    (match r with
     | inl UnknownObjectException => inr (None, [])
     | inl e => inl e
     | inr gh_content =>
         match sha gh_content with
         | inl UnknownObjectException => inr (None, [])
         | inl e => inl e
         | inr token =>
             match decoded_content gh_content with
             | inl UnknownObjectException => inr (None, token)
             | inl e => inl e
             | inr current => inr (Some current, token)
             end
         end
     end, w1, [Get_contents repo CODEOWNERS branch]).
Proof.
  unfold read_codeowners. rewrite bind_run. unfold try, call.
  destruct (get_contents R repo CODEOWNERS branch w) as [[e|[[e|token] [e'|current]]] w1];
    cbn; try destruct e; try destruct e'; reflexivity.
Qed.


(** The five ways through the body of the branch loop. *)
Lemma reconcile_branch_raise pkg repo content force ok branch w e w1 t1 :
  read_codeowners R repo branch w = (inl e, w1, t1) →
  reconcile_branch R L USER EMAIL pkg repo content force ok branch w = (inl e, w1, t1).
Proof. intros H. unfold reconcile_branch. rewrite bind_run, H. reflexivity. Qed.

Lemma reconcile_branch_absent pkg repo content force ok branch w token w1 t1 :
  read_codeowners R repo branch w = (inr (None, token), w1, t1) →
  reconcile_branch R L USER EMAIL pkg repo content force ok branch w =
    let '(r, w2) := create_file R repo CODEOWNERS (MESSAGE USER EMAIL) content branch w1 in
    let t := t1 ++ [Stderr (py "creating " ++ pkg ++ py " CODEOWNERS file in " ++ branch ++ py "...");
                    Create_file repo CODEOWNERS (MESSAGE USER EMAIL) content branch] in
    match r with
    | inl e => (inl e, w2, t)
    | inr _ => (inr ok, w2, t ++ [Stderr (py " done" ++ nl); Ended pkg branch Created])
    end.
Proof.
  intros H. unfold reconcile_branch. rewrite bind_run, H. cbn.
  unfold mbind, M_bind, bind, print_stderr, emit, call. cbn.
  destruct (create_file R repo CODEOWNERS (MESSAGE USER EMAIL) content branch w1) as [[e|[]] w2];
    cbn; rewrite ?app_nil_r, <- ?app_assoc; reflexivity.
Qed.

Lemma reconcile_branch_update pkg repo content ok branch w current token w1 t1 :
  read_codeowners R repo branch w = (inr (Some current, token), w1, t1) →
  current ≠ content →
  reconcile_branch R L USER EMAIL pkg repo content true ok branch w =
    let '(r, w2) := update_file R repo CODEOWNERS (MESSAGE USER EMAIL) content token branch w1 in
    let t := t1 ++ [Stderr (py "updating " ++ pkg ++ py " CODEOWNERS file in " ++ branch ++ py "...");
                    Update_file repo CODEOWNERS (MESSAGE USER EMAIL) content token branch] in
    match r with
    | inl e => (inl e, w2, t)
    | inr _ => (inr ok, w2, t ++ [Stderr (py " done" ++ nl); Ended pkg branch Updated])
    end.
Proof.
  intros H Hne. unfold reconcile_branch. rewrite bind_run, H. cbn.
  rewrite bool_decide_eq_false_2 by done. cbn.
  unfold mbind, M_bind, bind, print_stderr, emit, call. cbn.
  destruct (update_file R repo CODEOWNERS (MESSAGE USER EMAIL) content token branch w1) as [[e|[]] w2];
    cbn; rewrite ?app_nil_r, <- ?app_assoc; reflexivity.
Qed.

Lemma reconcile_branch_matching pkg repo content force ok branch w token w1 t1 :
  read_codeowners R repo branch w = (inr (Some content, token), w1, t1) →
  reconcile_branch R L USER EMAIL pkg repo content force ok branch w =
    (inr ok, w1,
     t1 ++ [Stderr (pkg ++ py " CODEOWNERS is already OK in " ++ branch ++ nl);
            Ended pkg branch AlreadyMatching]).
Proof.
  intros H. unfold reconcile_branch. rewrite bind_run, H. cbn.
  rewrite bool_decide_eq_true_2 by done. rewrite andb_false_r.
  unfold mbind, M_bind, bind, print_stderr, emit. cbn.
  rewrite <- !app_assoc. reflexivity.
Qed.

Lemma reconcile_branch_conflict pkg repo content ok branch w current token w1 t1 :
  read_codeowners R repo branch w = (inr (Some current, token), w1, t1) →
  current ≠ content →
  reconcile_branch R L USER EMAIL pkg repo content false ok branch w =
    (inr false, w1,
     t1 ++ [Stderr (py "error: " ++ pkg ++ py " CODEOWNERS is not synced in " ++ branch ++ nl);
            Stdout (diff L (Some current) content ++ nl);
            Ended pkg branch ConflictReported]).
Proof.
  intros H Hne. unfold reconcile_branch. rewrite bind_run, H. cbn.
  rewrite bool_decide_eq_false_2 by done.
  unfold mbind, M_bind, bind, print_stderr, print_stdout, emit. cbn.
  rewrite <- !app_assoc. reflexivity.
Qed.

Lemma read_codeowners_trace repo branch w :
  (read_codeowners R repo branch w).2 = [Get_contents repo CODEOWNERS branch].
Proof.
  rewrite read_codeowners_run.
  by destruct (get_contents R repo CODEOWNERS branch w).
Qed.


(** The read yields a content only out of a file that was fetched, and then
    the token is that file's. *)
Lemma read_codeowners_present repo branch w current token w1 t1 :
  read_codeowners R repo branch w = (inr (Some current, token), w1, t1) →
  ∃ gh_content,
    get_contents R repo CODEOWNERS branch w = (inr gh_content, w1) ∧
    sha gh_content = inr token ∧ decoded_content gh_content = inr current.
Proof.
  rewrite read_codeowners_run.
  destruct (get_contents R repo CODEOWNERS branch w) as [[e|[[e|tok] [e'|cur]]] w0];
    cbn; try destruct e; try destruct e'; intros [= ? ? ?]; subst; eauto.
Qed.

(** C1. In one pass over a (package, repository, branch), a remote write is
    issued exactly when the ownership file is absent, or is present with a
    content other than the expected one while force mode is on. Absent: the
    one write is [create_file] with the expected content. Present, differing,
    forced: the one write is [update_file] with the token of the file that
    was fetched. Present, differing, not forced: no write, the diff of the
    current against the expected content goes to the standard output, the
    pass returns [False] and the branch ends as a reported conflict. *)
Theorem C1_write_gating pkg repo content force ok branch w r w' t rd w1 t1 :
  reconcile_branch R L USER EMAIL pkg repo content force ok branch w = (r, w', t) →
  read_codeowners R repo branch w = (rd, w1, t1) →
  (writes t ≠ [] ↔
     (∃ token, rd = inr (None, token)) ∨
     (∃ current token, rd = inr (Some current, token) ∧ force = true ∧ current ≠ content)) ∧
  (∀ token, rd = inr (None, token) →
     writes t = [Create_file repo CODEOWNERS (MESSAGE USER EMAIL) content branch]) ∧
  (∀ current token, rd = inr (Some current, token) → force = true → current ≠ content →
     writes t = [Update_file repo CODEOWNERS (MESSAGE USER EMAIL) content token branch] ∧
     ∃ gh_content, get_contents R repo CODEOWNERS branch w = (inr gh_content, w1) ∧
                   sha gh_content = inr token) ∧
  (∀ current token, rd = inr (Some current, token) → force = false → current ≠ content →
     writes t = [] ∧ Stdout (diff L (Some current) content ++ nl) ∈ t ∧
     r = inr false ∧ ended t = [(pkg, branch, ConflictReported)]).
Proof.
  intros Hrun Hrd.
  pose proof (read_codeowners_trace repo branch w) as Ht1.
  rewrite Hrd in Ht1. cbn in Ht1. subst t1.
  destruct rd as [e|[[current|] token]].
  - (* the read raised *)
    rewrite (reconcile_branch_raise _ _ _ _ _ _ _ _ _ _ Hrd) in Hrun.
    injection Hrun as <- <- <-.
    split; [|by repeat split; intros; simplify_eq].
    split; [done|]. intros [[? ?]|(? & ? & ? & _)]; simplify_eq.
  - (* present *)
    destruct (decide (current = content)) as [->|Hne].
    + rewrite (reconcile_branch_matching _ _ _ _ _ _ _ _ _ _ Hrd) in Hrun.
      injection Hrun as <- <- <-.
      split; [|by repeat split; intros; simplify_eq].
      split; [done|]. intros [[? ?]|(? & ? & ? & _ & ?)]; simplify_eq.
    + destruct force.
      * rewrite (reconcile_branch_update _ _ _ _ _ _ _ _ _ _ Hrd Hne) in Hrun.
        assert (writes t = [Update_file repo CODEOWNERS (MESSAGE USER EMAIL) content token branch])
          as Hw.
        { destruct (update_file R repo CODEOWNERS (MESSAGE USER EMAIL) content token branch w1)
            as [[e|[]] w2]; injection Hrun as <- <- <-; reflexivity. }
        split; [|repeat split; intros; simplify_eq].
        -- rewrite Hw. split; [|done]. intros _. right. by eexists _, _.
        -- done.
        -- destruct (read_codeowners_present _ _ _ _ _ _ _ Hrd) as (gh & ? & ? & _). eauto.
      * rewrite (reconcile_branch_conflict _ _ _ _ _ _ _ _ _ _ Hrd Hne) in Hrun.
        injection Hrun as <- <- <-.
        split; [|repeat split; intros; simplify_eq; try done].
        -- split; [done|]. intros [[? ?]|(? & ? & ? & ? & ?)]; simplify_eq.
        -- set_solver.
  - (* absent *)
    rewrite (reconcile_branch_absent _ _ _ _ _ _ _ _ _ _ Hrd) in Hrun.
    assert (writes t = [Create_file repo CODEOWNERS (MESSAGE USER EMAIL) content branch]) as Hw.
    { destruct (create_file R repo CODEOWNERS (MESSAGE USER EMAIL) content branch w1)
        as [[e|[]] w2]; injection Hrun as <- <- <-; reflexivity. }
    split; [|repeat split; intros; simplify_eq; done].
    rewrite Hw. split; [|done]. intros _. left. by eexists.
Qed.


(** [set_gh_code_owners] is one pass over the branch [master], once the
    expected content is computed. *)
Lemma set_gh_code_owners_run pkg repo rpm force w :
  set_gh_code_owners R L USER EMAIL pkg repo rpm force w =
    match content_of L rpm with
    | inl e => (inl e, w, [])
    | inr content =>
        reconcile_branch R L USER EMAIL pkg repo content force true (py "master") w
    end.
Proof.
  unfold set_gh_code_owners. rewrite bind_run. unfold lift.
  destruct (content_of L rpm) as [e|content]; [done|].
  change BRANCHES with [py "master"]. cbn [for_branches]. rewrite bind_run.
  destruct (reconcile_branch _ _ _ _ _ _ _ _ _ _ w) as [[[e|ok] w1] t1]; [done|].
  cbn. by rewrite app_nil_r.
Qed.

Lemma for_pkgs_cons_run force rpms gh_repos pkg rest ok w :
  for_pkgs R L USER EMAIL force rpms gh_repos (pkg :: rest) ok w =
    match getitem gh_repos pkg, getitem rpms pkg with
    | inl e, _ => (inl e, w, [])
    | inr _, inl e => (inl e, w, [])
    | inr repo, inr rpm =>
        match set_gh_code_owners R L USER EMAIL pkg repo rpm force w with
        | (inl e, w1, t1) => (inl e, w1, t1)
        | (inr r, w1, t1) =>
            let '(r', w2, t2) :=
              for_pkgs R L USER EMAIL force rpms gh_repos rest (ok && r) w1 in
            (r', w2, t1 ++ t2)
        end
    end.
Proof.
  cbn [for_pkgs]. rewrite bind_run. unfold lift.
  destruct (getitem gh_repos pkg) as [e|repo]; [done|].
  rewrite bind_run. destruct (getitem rpms pkg) as [e|rpm]; [done|].
  rewrite bind_run.
  destruct (set_gh_code_owners _ _ _ _ _ _ _ _ w) as [[[e|r] w1] t1]; [done|].
  cbn. by destruct (for_pkgs _ _ _ _ _ _ _ _ _ w1) as [[? ?] ?].
Qed.

(** The loop over a list in two parts is the loop over the first part
    followed, if it returns, by the loop over the second. *)
Lemma for_pkgs_app_run force rpms gh_repos pkgs1 pkgs2 ok w :
  for_pkgs R L USER EMAIL force rpms gh_repos (pkgs1 ++ pkgs2) ok w =
    match for_pkgs R L USER EMAIL force rpms gh_repos pkgs1 ok w with
    | (inl e, w1, t1) => (inl e, w1, t1)
    | (inr ok1, w1, t1) =>
        let '(r, w2, t2) := for_pkgs R L USER EMAIL force rpms gh_repos pkgs2 ok1 w1 in
        (r, w2, t1 ++ t2)
    end.
Proof.
  revert ok w. induction pkgs1 as [|pkg pkgs1 IH]; intros ok w.
  - cbn. by destruct (for_pkgs _ _ _ _ _ _ _ _ _ w) as [[? ?] ?].
  - rewrite <- app_comm_cons, !for_pkgs_cons_run.
    destruct (getitem gh_repos pkg) as [e|repo]; [done|].
    destruct (getitem rpms pkg) as [e|rpm]; [done|].
    destruct (set_gh_code_owners _ _ _ _ _ _ _ _ w) as [[[e|r] w1] t1]; [done|].
    rewrite IH.
    destruct (for_pkgs _ _ _ _ _ _ _ pkgs1 _ w1) as [[[e|ok1] w2] t2]; [done|].
    destruct (for_pkgs _ _ _ _ _ _ _ pkgs2 _ w2) as [[r' w3] t3].
    by rewrite app_assoc.
Qed.

(** C2. When the read of the ownership file raises "object not found", the
    content counts as absent and nothing is raised by the read; whatever
    the force flag, the one write of the pass is then [create_file] with the
    expected content (a call that takes no revision token), never
    [update_file]. Any other exception of the read leaves the pass as it
    is, with no event after the read, and likewise leaves
    [set_gh_code_owners] and the loop over the packages: the run stops at
    the failed read. *)
Theorem C2_not_found_creates pkg repo content ok branch w e w1 :
  get_contents R repo CODEOWNERS branch w = (inl e, w1) →
  (e = UnknownObjectException →
     read_codeowners R repo branch w =
       (inr (None, []), w1, [Get_contents repo CODEOWNERS branch]) ∧
     ∀ force, writes (reconcile_branch R L USER EMAIL pkg repo content force ok branch w).2 =
                [Create_file repo CODEOWNERS (MESSAGE USER EMAIL) content branch]) ∧
  (e ≠ UnknownObjectException →
     (∀ force, reconcile_branch R L USER EMAIL pkg repo content force ok branch w =
                 (inl e, w1, [Get_contents repo CODEOWNERS branch])) ∧
     (∀ force rpms gh_repos rpm before after acc acc' w0 t0,
        branch = py "master" →
        gh_repos !! pkg = Some repo → rpms !! pkg = Some rpm →
        content_of L rpm = inr content →
        for_pkgs R L USER EMAIL force rpms gh_repos before acc w0 = (inr acc', w, t0) →
        set_gh_code_owners R L USER EMAIL pkg repo rpm force w =
          (inl e, w1, [Get_contents repo CODEOWNERS branch]) ∧
        for_pkgs R L USER EMAIL force rpms gh_repos (before ++ pkg :: after) acc w0 =
          (inl e, w1, t0 ++ [Get_contents repo CODEOWNERS branch]))).
Proof.
  intros Hget. split.
  - intros ->.
    assert (read_codeowners R repo branch w =
              (inr (None, []), w1, [Get_contents repo CODEOWNERS branch])) as Hrd.
    { by rewrite read_codeowners_run, Hget. }
    split; [done|]. intros force.
    rewrite (reconcile_branch_absent _ _ _ _ _ _ _ _ _ _ Hrd).
    by destruct (create_file R repo CODEOWNERS (MESSAGE USER EMAIL) content branch w1)
      as [[e|[]] w2].
  - intros Hne.
    assert (read_codeowners R repo branch w =
              (inl e, w1, [Get_contents repo CODEOWNERS branch])) as Hrd.
    { rewrite read_codeowners_run, Hget. by destruct e. }
    assert (∀ force, reconcile_branch R L USER EMAIL pkg repo content force ok branch w =
                       (inl e, w1, [Get_contents repo CODEOWNERS branch])) as Hpass.
    { intros force. by apply reconcile_branch_raise. }
    split; [done|].
    intros force rpms gh_repos rpm before after acc acc' w0 t0 -> Hrepo Hrpm Hc Hbefore.
    assert (set_gh_code_owners R L USER EMAIL pkg repo rpm force w =
              (inl e, w1, [Get_contents repo CODEOWNERS (py "master")])) as Hset.
    { rewrite set_gh_code_owners_run, Hc. by apply reconcile_branch_raise. }
    split; [done|].
    rewrite for_pkgs_app_run, Hbefore, for_pkgs_cons_run.
    unfold getitem. by rewrite Hrepo, Hrpm, Hset.
Qed.


Lemma fst_unique {A B} (l : list (A * B)) k v1 v2 :
  NoDup l.*1 → (k, v1) ∈ l → (k, v2) ∈ l → v1 = v2.
Proof.
  induction l as [|[k' v'] l IH]; cbn; [by intros _ ?%elem_of_nil|].
  rewrite NoDup_cons, !elem_of_cons. intros [Hk Hl] [H1|H1] [H2|H2]; simplify_eq; auto.
  - destruct Hk. by apply (list_elem_of_fmap_2 fst l (k', v2)).
  - destruct Hk. by apply (list_elem_of_fmap_2 fst l (k', v1)).
Qed.

Lemma ended_app (t1 t2 : list (event Repo)) : ended (t1 ++ t2) = ended t1 ++ ended t2.
Proof. apply omap_app. Qed.

(** A pass that returns ends its branch once, and clears the flag exactly
    on a reported conflict; a pass that raises ends nothing. *)
Lemma reconcile_branch_ended pkg repo content force ok branch w r w' t :
  reconcile_branch R L USER EMAIL pkg repo content force ok branch w = (r, w', t) →
  match r with
  | inr ok' => ∃ o, ended t = [(pkg, branch, o)] ∧ ok' = ok && clean (pkg, branch, o)
  | inl _ => ended t = []
  end.
Proof.
  intros Hrun.
  destruct (read_codeowners R repo branch w) as [[rd w1] t1] eqn:Hrd.
  pose proof (read_codeowners_trace repo branch w) as Ht1.
  rewrite Hrd in Ht1. cbn in Ht1. subst t1.
  destruct rd as [e|[[current|] token]].
  - rewrite (reconcile_branch_raise _ _ _ _ _ _ _ _ _ _ Hrd) in Hrun.
    by injection Hrun as <- <- <-.
  - destruct (decide (current = content)) as [->|Hne].
    + rewrite (reconcile_branch_matching _ _ _ _ _ _ _ _ _ _ Hrd) in Hrun.
      injection Hrun as <- <- <-. exists AlreadyMatching. by rewrite andb_true_r.
    + destruct force.
      * rewrite (reconcile_branch_update _ _ _ _ _ _ _ _ _ _ Hrd Hne) in Hrun.
        destruct (update_file R repo CODEOWNERS (MESSAGE USER EMAIL) content token branch w1)
          as [[e|[]] w2]; injection Hrun as <- <- <-; [done|].
        exists Updated. by rewrite andb_true_r.
      * rewrite (reconcile_branch_conflict _ _ _ _ _ _ _ _ _ _ Hrd Hne) in Hrun.
        injection Hrun as <- <- <-. exists ConflictReported. by rewrite andb_false_r.
  - rewrite (reconcile_branch_absent _ _ _ _ _ _ _ _ _ _ Hrd) in Hrun.
    destruct (create_file R repo CODEOWNERS (MESSAGE USER EMAIL) content branch w1)
      as [[e|[]] w2]; injection Hrun as <- <- <-; [done|].
    exists Created. by rewrite andb_true_r.
Qed.

Lemma set_gh_code_owners_ended pkg repo rpm force w r w' t :
  set_gh_code_owners R L USER EMAIL pkg repo rpm force w = (r, w', t) →
  match r with
  | inr ok => ∃ o, ended t = [(pkg, py "master", o)] ∧ ok = clean (pkg, py "master", o)
  | inl _ => ended t = []
  end.
Proof.
  rewrite set_gh_code_owners_run. destruct (content_of L rpm) as [e|content].
  - by intros [= <- <- <-].
  - intros Hrun. apply reconcile_branch_ended in Hrun. by destruct r.
Qed.

(** The loop over the packages ends the branch of every package it gets
    through, in order; its flag is the conjunction of the flag it started
    with and of every branch being clean; when it raises, the package at
    which it stopped and the ones after it have ended nothing. *)
Lemma for_pkgs_ended force rpms gh_repos pkgs ok w r w' t :
  for_pkgs R L USER EMAIL force rpms gh_repos pkgs ok w = (r, w', t) →
  match r with
  | inr ok' =>
      (ended t).*1 = (λ pkg, (pkg, py "master")) <$> pkgs ∧
      ok' = ok && forallb clean (ended t)
  | inl _ =>
      ∃ before pkg after,
        pkgs = before ++ pkg :: after ∧
        (ended t).*1 = (λ pkg, (pkg, py "master")) <$> before
  end.
Proof.
  revert ok w r w' t. induction pkgs as [|pkg pkgs IH]; intros ok w r w' t.
  - intros [= <- <- <-]. cbn. by rewrite andb_true_r.
  - rewrite for_pkgs_cons_run.
    destruct (getitem gh_repos pkg) as [e|repo].
    { intros [= <- <- <-]. by exists [], pkg, pkgs. }
    destruct (getitem rpms pkg) as [e|rpm].
    { intros [= <- <- <-]. by exists [], pkg, pkgs. }
    destruct (set_gh_code_owners _ _ _ _ _ _ _ _ w) as [[[e|r1] w1] t1] eqn:Hset;
      apply set_gh_code_owners_ended in Hset.
    { intros [= <- <- <-]. exists [], pkg, pkgs. by rewrite Hset. }
    destruct Hset as (o & Ht1 & ->).
    destruct (for_pkgs _ _ _ _ _ _ _ pkgs _ w1) as [[r2 w2] t2] eqn:Hrest.
    apply IH in Hrest. intros [= <- <- <-]. rewrite ended_app, Ht1.
    destruct r2 as [e|ok2].
    + destruct Hrest as (before & p & after & -> & Ht2).
      exists (pkg :: before), p, after. cbn. by rewrite Ht2.
    + destruct Hrest as [Ht2 ->]. cbn. rewrite Ht2. split; [done|].
      by rewrite andb_assoc.
Qed.

(** C3. The process exits with status 1 as soon as one branch of one
    repository ended in a reported conflict, and with status 0 when every
    branch of every repository that is both on the platform and in the
    registry ended otherwise (created, updated or already matching). When
    the loop runs to its end, its flag is the conjunction, over the
    repositories, of their branch being clean, and the status is 0 or 1 as
    the flag is set or not. *)
Theorem C3_exit_status force rpms gh_repos w status w' t :
  (∀ X, set_iter L X ≡ₚ elements X) →
  main R L USER EMAIL force rpms gh_repos w = (status, w', t) →
  ((∃ pkg branch, (pkg, branch, ConflictReported) ∈ ended t) → status = 1%Z) ∧
  ((∀ pkg branch, pkg ∈ dom gh_repos ∩ dom rpms → branch ∈ BRANCHES →
      ∃ o, o ≠ ConflictReported ∧ (pkg, branch, o) ∈ ended t) → status = 0%Z) ∧
  (∀ ok, for_pkgs R L USER EMAIL force rpms gh_repos
           (set_iter L (dom gh_repos ∩ dom rpms)) true w = (inr ok, w', t) →
         ok = forallb clean (ended t) ∧ status = (if ok then 0 else 1)%Z).
Proof.
  intros Hiter. unfold main.
  set (pkgs := set_iter L (dom gh_repos ∩ dom rpms)).
  assert (NoDup pkgs) as Hnodup.
  { unfold pkgs. rewrite Hiter. apply NoDup_elements. }
  assert (∀ pkg, pkg ∈ pkgs → pkg ∈ dom gh_repos ∩ dom rpms) as Hin.
  { intros pkg. unfold pkgs. rewrite Hiter. apply elem_of_elements. }
  assert (∀ pkg, pkg ∈ dom gh_repos ∩ dom rpms → pkg ∈ pkgs) as Hin'.
  { intros pkg. unfold pkgs. rewrite Hiter. apply elem_of_elements. }
  destruct (for_pkgs _ _ _ _ _ _ _ pkgs _ w) as [[r w1] t1] eqn:Hrun.
  intros [= <- <- <-]. pose proof (for_pkgs_ended _ _ _ _ _ _ _ _ _ Hrun) as Hended.
  split; [|split].
  - (* a conflict gives status 1 *)
    intros (pkg & branch & Hc). destruct r as [e|ok]; [done|].
    destruct Hended as [_ ->]. cbn.
    destruct (forallb clean (ended t1)) eqn:Hall; [|done].
    apply Is_true_eq_left, forallb_True in Hall. rewrite Forall_forall in Hall.
    by specialize (Hall _ Hc).
  - (* every branch clean gives status 0 *)
    intros Hclean. destruct r as [e|ok].
    + destruct Hended as (before & pkg & after & Hpkgs & Ht).
      rewrite Hpkgs in Hnodup. apply NoDup_app in Hnodup as (_ & Hsep & _).
      assert (pkg ∈ pkgs) as Hp.
      { rewrite Hpkgs, elem_of_app, elem_of_cons. auto. }
      destruct (Hclean pkg (py "master") (Hin _ Hp)) as (o & _ & Ho).
      { apply list_elem_of_here. }
      apply (list_elem_of_fmap_2 fst) in Ho. rewrite Ht in Ho. cbn in Ho.
      apply list_elem_of_fmap in Ho as (p & [= <-] & Hb).
      destruct (Hsep _ Hb). apply list_elem_of_here.
    + destruct Hended as [Ht ->]. cbn.
      assert (forallb clean (ended t1) = true) as ->; [|done].
      apply Is_true_eq_true, forallb_True, Forall_forall. intros [[pkg branch] o] Hx.
      pose proof (list_elem_of_fmap_2 fst _ _ Hx) as Hk. rewrite Ht in Hk. cbn in Hk.
      apply list_elem_of_fmap in Hk as (p & [= -> ->] & Hp).
      destruct (Hclean p (py "master") (Hin _ Hp)) as (o' & Hne & Ho').
      { apply list_elem_of_here. }
      assert (o = o') as ->.
      { eapply fst_unique; [|exact Hx|exact Ho'].
        rewrite Ht. apply (NoDup_fmap_2_strong _); [|done]. by intros ? ? _ _ [= ->]. }
      unfold clean. cbn. by rewrite bool_decide_eq_false_2.
  - intros ok [= ->]. destruct Hended as [_ ->]. cbn. by destruct (forallb _ _).
Qed.


(** After a pass that created or updated the file on a remote that keeps
    what is written, the next pass over the same branch finds the expected
    content and writes nothing. *)
Lemma reconcile_branch_again pkg repo content force ok branch w r1 w1 t1 o :
  keeps_writes R →
  reconcile_branch R L USER EMAIL pkg repo content force ok branch w = (r1, w1, t1) →
  (pkg, branch, o) ∈ ended t1 → o = Created ∨ o = Updated →
  ∀ force' ok', ∃ w2 t2,
    reconcile_branch R L USER EMAIL pkg repo content force' ok' branch w1 = (inr ok', w2, t2) ∧
    ended t2 = [(pkg, branch, AlreadyMatching)] ∧ writes t2 = [].
Proof.
  intros [Hcreate Hupdate] Hrun Ho Hkind force' ok'.
  assert (∀ s w'', get_contents R repo CODEOWNERS branch w1 =
            (inr {| sha := inr s; decoded_content := inr content |}, w'') →
          ∃ w2 t2,
            reconcile_branch R L USER EMAIL pkg repo content force' ok' branch w1 =
              (inr ok', w2, t2) ∧
            ended t2 = [(pkg, branch, AlreadyMatching)] ∧ writes t2 = []) as Hnext.
  { intros s w'' Hget.
    assert (read_codeowners R repo branch w1 =
              (inr (Some content, s), w'', [Get_contents repo CODEOWNERS branch])) as Hrd'.
    { by rewrite read_codeowners_run, Hget. }
    eexists _, _.
    split; [by apply (reconcile_branch_matching _ _ _ _ _ _ _ _ _ _ Hrd')|done]. }
  destruct (read_codeowners R repo branch w) as [[rd w0] t0] eqn:Hrd.
  pose proof (read_codeowners_trace repo branch w) as Ht0.
  rewrite Hrd in Ht0. cbn in Ht0. subst t0.
  destruct rd as [e|[[current|] token]].
  - rewrite (reconcile_branch_raise _ _ _ _ _ _ _ _ _ _ Hrd) in Hrun.
    injection Hrun as <- <- <-. by apply elem_of_nil in Ho.
  - destruct (decide (current = content)) as [->|Hne].
    + rewrite (reconcile_branch_matching _ _ _ _ _ _ _ _ _ _ Hrd) in Hrun.
      injection Hrun as <- <- <-. apply list_elem_of_singleton in Ho.
      destruct Hkind; simplify_eq.
    + destruct force.
      * rewrite (reconcile_branch_update _ _ _ _ _ _ _ _ _ _ Hrd Hne) in Hrun.
        destruct (update_file R repo CODEOWNERS (MESSAGE USER EMAIL) content token branch w0)
          as [[e|[]] w2] eqn:Hup; injection Hrun as <- <- <-;
          [by apply elem_of_nil in Ho|].
        destruct (Hupdate _ _ _ _ _ _ _ _ Hup) as (s & w'' & Hget). eauto.
      * rewrite (reconcile_branch_conflict _ _ _ _ _ _ _ _ _ _ Hrd Hne) in Hrun.
        injection Hrun as <- <- <-. apply list_elem_of_singleton in Ho.
        destruct Hkind; simplify_eq.
  - rewrite (reconcile_branch_absent _ _ _ _ _ _ _ _ _ _ Hrd) in Hrun.
    destruct (create_file R repo CODEOWNERS (MESSAGE USER EMAIL) content branch w0)
      as [[e|[]] w2] eqn:Hcr; injection Hrun as <- <- <-;
      [by apply elem_of_nil in Ho|].
    destruct (Hcreate _ _ _ _ _ _ _ Hcr) as (s & w'' & Hget). eauto.
Qed.

(** C7. On a remote that keeps what is written (a read after a write that
    returned yields the written content), two calls of [set_gh_code_owners]
    in succession for the same package and repository, force mode on: every
    branch that the first call created or updated is found already matching
    by the second, which issues no write and returns [True]. *)
Theorem C7_second_pass_matches pkg repo rpm w r1 w1 t1 branch o :
  keeps_writes R →
  set_gh_code_owners R L USER EMAIL pkg repo rpm true w = (r1, w1, t1) →
  (pkg, branch, o) ∈ ended t1 → o = Created ∨ o = Updated →
  ∃ w2 t2,
    set_gh_code_owners R L USER EMAIL pkg repo rpm true w1 = (inr true, w2, t2) ∧
    (pkg, branch, AlreadyMatching) ∈ ended t2 ∧
    (∀ o', (pkg, branch, o') ∈ ended t2 → o' = AlreadyMatching) ∧
    writes t2 = [].
Proof.
  intros HR. rewrite !set_gh_code_owners_run.
  destruct (content_of L rpm) as [e|content].
  { intros [= <- <- <-] Ho. by apply elem_of_nil in Ho. }
  intros Hrun Ho Hkind.
  assert (branch = py "master") as ->.
  { apply reconcile_branch_ended in Hrun. destruct r1 as [e|ok].
    - rewrite Hrun in Ho. by apply elem_of_nil in Ho.
    - destruct Hrun as (o1 & Ht & _). rewrite Ht in Ho.
      apply list_elem_of_singleton in Ho. by simplify_eq. }
  destruct (reconcile_branch_again _ _ _ _ _ _ _ _ _ _ _ HR Hrun Ho Hkind true true)
    as (w2 & t2 & Hnext & Hended & Hwrites).
  exists w2, t2. rewrite Hended. repeat split; [done|apply list_elem_of_here| |done].
  intros o' Ho'. apply list_elem_of_singleton in Ho'. by simplify_eq.
Qed.

End Runs.

(** ** The team handle and the expected content *)

Section ContentFacts.
Variable L : PyLib.

(** C4. The handle of a maintainer name is the prefix [@xcp-ng-rpms/]
    followed by the lower-cased name in which every maximal run of code
    points that are neither alphanumeric nor the underscore is replaced by
    one hyphen. The runs are those of [runs]: they make up the lower-cased
    name, none is empty, each holds code points of one class, and two
    neighbours differ in class, so that no run can be extended. *)
Theorem C4_team_handle m :
  to_gh_team L m = spec_team_handle L m ∧
  concat ((λ run, run.2) <$> runs L (str_lower L m)) = str_lower L m ∧
  Forall (λ run, run.2 ≠ [] ∧ Forall (λ c, is_word L c = run.1) run.2)
         (runs L (str_lower L m)) ∧
  (∀ i a b, runs L (str_lower L m) !! i = Some a →
            runs L (str_lower L m) !! S i = Some b → a.1 ≠ b.1).
Proof.
  unfold to_gh_team, spec_team_handle. rewrite re_sub_runs.
  split; [done|]. split; [apply runs_concat|]. split; [apply runs_uniform|].
  intros i a b. apply runs_alternate.
Qed.

(** C6, as the code has it. The handle of ["Some / Weird--Name!!"] is
    [@xcp-ng-rpms/some-weird-name-]: every maximal non-word run becomes one
    hyphen, the closing ["!!"] too, and the result is lower-case. *)
Theorem C6_weird_name_handle :
  to_gh_team L (py "Some / Weird--Name!!") = py "@xcp-ng-rpms/some-weird-name-".
Proof. reflexivity. Qed.

Lemma platform_team_handle :
  to_gh_team L (py "OS Platform & Release") = py "@xcp-ng-rpms/os-platform-release".
Proof. reflexivity. Qed.

Lemma owners_of_maintainer (rpm : gmap pystr pyval) m :
  rpm !! py "maintainer" = Some (VStr m) →
  owners_of rpm =
    inr (if decide (m = py "OS Platform & Release") then [VStr m]
         else [VStr m; VStr (py "OS Platform & Release")]).
Proof.
  intros Hm. unfold owners_of. rewrite Hm. f_equal.
  destruct (decide (m = py "OS Platform & Release")) as [->|Hne].
  - rewrite bool_decide_eq_true_2; [done|]. apply list_elem_of_here.
  - rewrite bool_decide_eq_false_2; [done|].
    intros H%list_elem_of_singleton. by simplify_eq.
Qed.

Lemma content_of_maintainer (rpm : gmap pystr pyval) m :
  rpm !! py "maintainer" = Some (VStr m) →
  content_of L rpm =
    inr (py "* " ++
         (if decide (m = py "OS Platform & Release") then to_gh_team L m
          else to_gh_team L m ++ py " " ++ to_gh_team L (py "OS Platform & Release")) ++
         nl).
Proof.
  intros Hm. unfold content_of. rewrite (owners_of_maintainer _ _ Hm).
  by destruct (decide (m = py "OS Platform & Release")).
Qed.

(** C5. The expected content of a record whose maintainer is the string
    [m] is the line ["* "], the handle of [m], a space, the handle of the
    fallback owner [OS Platform & Release], and one line feed; when [m] is
    that very name the line holds the handle once: ["* "], the handle, the
    line feed. *)
Theorem C5_expected_content (rpm : gmap pystr pyval) m :
  rpm !! py "maintainer" = Some (VStr m) →
  (m ≠ py "OS Platform & Release" →
     content_of L rpm =
       inr (py "* " ++ to_gh_team L m ++ py " " ++
            py "@xcp-ng-rpms/os-platform-release" ++ nl)) ∧
  (m = py "OS Platform & Release" →
     content_of L rpm = inr (py "* @xcp-ng-rpms/os-platform-release" ++ nl) ∧
     occurrences (py "@xcp-ng-rpms/os-platform-release")
                 (py "* @xcp-ng-rpms/os-platform-release" ++ nl) = 1%nat).
Proof.
  intros Hm. rewrite (content_of_maintainer _ _ Hm). split.
  - intros Hne. rewrite decide_False by done.
    rewrite platform_team_handle. by rewrite <- !app_assoc.
  - intros ->. rewrite decide_True by done. rewrite platform_team_handle.
    split; reflexivity.
Qed.

(** C9. Whatever the maintainer string, line breaks and other blanks
    included, the expected content is one line: a text without any line
    feed, followed by a single line feed. *)
Theorem C9_single_line (rpm : gmap pystr pyval) m :
  rpm !! py "maintainer" = Some (VStr m) →
  ∃ line, content_of L rpm = inr (line ++ nl) ∧ LF ∉ line.
Proof.
  intros Hm. rewrite (content_of_maintainer _ _ Hm).
  eexists. split; [by rewrite app_assoc|].
  assert (LF ∉ py "* ") as Hstar by by apply (bool_decide_unpack _).
  assert (LF ∉ py " ") as Hsp by by apply (bool_decide_unpack _).
  pose proof (to_gh_team_no_LF L m).
  pose proof (to_gh_team_no_LF L (py "OS Platform & Release")).
  destruct (decide (m = py "OS Platform & Release")); rewrite !elem_of_app; tauto.
Qed.

End ContentFacts.

Section ContentInRuns.
Context {Repo W : Type}.
Variable R : Remote Repo W.
Variable L : PyLib.
Variables USER EMAIL : pystr.

(** Whatever a pass writes carries the expected content it was given. *)
Lemma reconcile_branch_written pkg repo content force ok branch w e :
  e ∈ writes (reconcile_branch R L USER EMAIL pkg repo content force ok branch w).2 →
  written_content e = Some content.
Proof.
  destruct (read_codeowners R repo branch w) as [[rd w1] t1] eqn:Hrd.
  pose proof (read_codeowners_trace R repo branch w) as Ht1.
  rewrite Hrd in Ht1. cbn in Ht1. subst t1.
  destruct rd as [x|[[current|] token]].
  - rewrite (reconcile_branch_raise R L USER EMAIL _ _ _ _ _ _ _ _ _ _ Hrd).
    by intros ?%elem_of_nil.
  - destruct (decide (current = content)) as [->|Hne].
    + rewrite (reconcile_branch_matching R L USER EMAIL _ _ _ _ _ _ _ _ _ _ Hrd).
      by intros ?%elem_of_nil.
    + destruct force.
      * rewrite (reconcile_branch_update R L USER EMAIL _ _ _ _ _ _ _ _ _ _ Hrd Hne).
        destruct (update_file R repo CODEOWNERS (MESSAGE USER EMAIL) content token branch w1)
          as [[x|[]] w2]; by intros ->%list_elem_of_singleton.
      * rewrite (reconcile_branch_conflict R L USER EMAIL _ _ _ _ _ _ _ _ _ _ Hrd Hne).
        by intros ?%elem_of_nil.
  - rewrite (reconcile_branch_absent R L USER EMAIL _ _ _ _ _ _ _ _ _ _ Hrd).
    destruct (create_file R repo CODEOWNERS (MESSAGE USER EMAIL) content branch w1)
      as [[x|[]] w2]; by intros ->%list_elem_of_singleton.
Qed.

(** C8. The expected content is a function of the maintainer record alone,
    indeed of its [maintainer] field: two records that agree on it get the
    same content, to the code point, closing line feed included; and what
    [set_gh_code_owners] writes for a record is that content, whatever the
    package, the repository, the force flag and the state of the remote. *)
Theorem C8_content_determined (rpm1 rpm2 : gmap pystr pyval) :
  rpm1 !! py "maintainer" = rpm2 !! py "maintainer" →
  content_of L rpm1 = content_of L rpm2 ∧
  (∀ content, content_of L rpm1 = inr content → ∃ line, content = line ++ nl) ∧
  (∀ pkg repo force w e,
     e ∈ writes (set_gh_code_owners R L USER EMAIL pkg repo rpm2 force w).2 →
     ∃ content, content_of L rpm1 = inr content ∧ written_content e = Some content).
Proof.
  intros Hm.
  assert (content_of L rpm1 = content_of L rpm2) as Heq.
  { unfold content_of, owners_of. by rewrite Hm. }
  split; [done|]. split.
  - intros content. unfold content_of.
    destruct (owners_of rpm1) as [e|owners]; [done|].
    destruct (teams_of L owners) as [e|teams]; [done|].
    intros [= <-]. exists (py "* " ++ str_join (py " ") teams). reflexivity.
  - intros pkg repo force w e. rewrite set_gh_code_owners_run, Heq.
    destruct (content_of L rpm2) as [x|content]; [by intros ?%elem_of_nil|].
    intros He. exists content. split; [done|]. by eapply reconcile_branch_written.
Qed.

(** C10. The empty maintainer name raises nothing: its handle is the bare
    prefix [@xcp-ng-rpms/], the expected content of such a record is the
    line with that prefix-only token before the handle of the fallback
    owner, and [set_gh_code_owners] goes on to reconcile the branch with
    that content. *)
Theorem C10_empty_name (rpm : gmap pystr pyval) :
  rpm !! py "maintainer" = Some (VStr []) →
  to_gh_team L [] = py "@xcp-ng-rpms/" ∧
  content_of L rpm = inr (py "* @xcp-ng-rpms/ @xcp-ng-rpms/os-platform-release" ++ nl) ∧
  (∀ pkg repo force w,
     set_gh_code_owners R L USER EMAIL pkg repo rpm force w =
       reconcile_branch R L USER EMAIL pkg repo
         (py "* @xcp-ng-rpms/ @xcp-ng-rpms/os-platform-release" ++ nl)
         force true (py "master") w).
Proof.
  intros Hm.
  assert (content_of L rpm =
            inr (py "* @xcp-ng-rpms/ @xcp-ng-rpms/os-platform-release" ++ nl)) as Hc.
  { by rewrite (content_of_maintainer _ _ _ Hm). }
  split; [reflexivity|]. split; [done|].
  intros pkg repo force w. by rewrite set_gh_code_owners_run, Hc.
Qed.

End ContentInRuns.

(** ** The properties on a registry of one package *)

(** C6, as the specification has it, fails: the handle of
    ["Some / Weird--Name!!"] is not [@xcp-ng-rpms/some-weird-name]. *)
Lemma C6_claimed_handle_refuted :
  to_gh_team ascii_lib (py "Some / Weird--Name!!") ≠ py "@xcp-ng-rpms/some-weird-name".
Proof. intros H. vm_compute in H. discriminate H. Qed.

(** The store-backed platform keeps what is written. *)
Lemma store_keeps_writes : keeps_writes store_remote.
Proof.
  split.
  - intros repo path message content branch w w'. cbn.
    destruct (w !! (repo, branch, path)) as [[s c]|]; [done|].
    intros [= <-]. exists (blob_sha content), (<[(repo, branch, path):=(blob_sha content, content)]> w).
    by rewrite lookup_insert_eq.
  - intros repo path message content token branch w w'. cbn.
    destruct (w !! (repo, branch, path)) as [[s c]|]; [|done].
    case_bool_decide; [|done].
    intros [= <-]. exists (blob_sha content), (<[(repo, branch, path):=(blob_sha content, content)]> w).
    by rewrite lookup_insert_eq.
Qed.

(** C1 on the diverged platform, force off: no write, the diff printed, the
    flag cleared, the branch ended as a reported conflict. *)
Lemma C1_write_gating_witness :
  let run := reconcile_branch store_remote ascii_lib (py "Jane") (py "jane@example.org")
               (py "xen") 7 demo_content false true (py "master") demo_diverged in
  writes run.2 = [] ∧
  Stdout (diff ascii_lib (Some (py "* @xcp-ng-rpms/other" ++ nl)) demo_content ++ nl) ∈ run.2 ∧
  run.1.1 = inr false ∧
  ended run.2 = [(py "xen", py "master", ConflictReported)].
Proof.
  intros run.
  pose proof (C1_write_gating store_remote ascii_lib (py "Jane") (py "jane@example.org")
                (py "xen") 7 demo_content false true (py "master") demo_diverged
                run.1.1 run.1.2 run.2
                (inr (Some (py "* @xcp-ng-rpms/other" ++ nl),
                      blob_sha (py "* @xcp-ng-rpms/other" ++ nl)))
                demo_diverged [Get_contents 7 CODEOWNERS (py "master")]
                eq_refl eq_refl) as (_ & _ & _ & H).
  apply (H _ _ eq_refl eq_refl). by apply (bool_decide_unpack _).
Defined.

(** C2 on the empty platform: the read finds nothing and the pass creates
    the file. *)
Lemma C2_not_found_creates_witness :
  get_contents store_remote 7 CODEOWNERS (py "master") ∅ = (inl UnknownObjectException, ∅) ∧
  writes (reconcile_branch store_remote ascii_lib (py "Jane") (py "jane@example.org")
            (py "xen") 7 demo_content false true (py "master") ∅).2 =
    [Create_file 7 CODEOWNERS (MESSAGE (py "Jane") (py "jane@example.org"))
       demo_content (py "master")].
Proof.
  split; [reflexivity|].
  exact (proj2 (proj1 (C2_not_found_creates store_remote ascii_lib (py "Jane")
                         (py "jane@example.org") (py "xen") 7 demo_content true
                         (py "master") ∅ UnknownObjectException ∅ eq_refl) eq_refl) false).
Defined.

(** C3 on the diverged platform, force off: the run exits with status 1. *)
Lemma C3_exit_status_witness :
  (main store_remote ascii_lib (py "Jane") (py "jane@example.org") false
     demo_rpms demo_repos demo_diverged).1.1 = 1%Z.
Proof.
  set (run := main store_remote ascii_lib (py "Jane") (py "jane@example.org") false
                demo_rpms demo_repos demo_diverged).
  assert (run = (run.1.1, run.1.2, run.2)) as Hrun by by destruct run as [[? ?] ?].
  apply (proj1 (C3_exit_status store_remote ascii_lib (py "Jane") (py "jane@example.org")
                  false demo_rpms demo_repos demo_diverged run.1.1 run.1.2 run.2
                  (λ X, reflexivity (elements X)) Hrun)).
  exists (py "xen"), (py "master"). vm_compute. apply list_elem_of_here.
Defined.

(** C7 on the empty platform: the first call creates the file, the second
    finds it matching. *)
Lemma C7_second_pass_matches_witness :
  let first := set_gh_code_owners store_remote ascii_lib (py "Jane") (py "jane@example.org")
                 (py "xen") 7 {[ py "maintainer" := VStr (py "Hypervisor & Kernel") ]} true ∅ in
  (py "xen", py "master", Created) ∈ ended first.2 ∧
  ∃ w2 t2,
    set_gh_code_owners store_remote ascii_lib (py "Jane") (py "jane@example.org")
      (py "xen") 7 {[ py "maintainer" := VStr (py "Hypervisor & Kernel") ]} true first.1.2 =
      (inr true, w2, t2) ∧
    (py "xen", py "master", AlreadyMatching) ∈ ended t2 ∧
    (∀ o', (py "xen", py "master", o') ∈ ended t2 → o' = AlreadyMatching) ∧
    writes t2 = [].
Proof.
  intros first.
  assert (first = (first.1.1, first.1.2, first.2)) as Hfirst by by destruct first as [[? ?] ?].
  assert ((py "xen", py "master", Created) ∈ ended first.2) as Hcreated.
  { vm_compute. apply list_elem_of_here. }
  split; [exact Hcreated|].
  exact (C7_second_pass_matches store_remote ascii_lib (py "Jane") (py "jane@example.org")
           (py "xen") 7 {[ py "maintainer" := VStr (py "Hypervisor & Kernel") ]} ∅
           first.1.1 first.1.2 first.2 (py "master") Created
           store_keeps_writes Hfirst Hcreated (or_introl eq_refl)).
Defined.

(** C5 for the maintainer [Hypervisor & Kernel]. *)
Lemma C5_expected_content_witness :
  ({[ py "maintainer" := VStr (py "Hypervisor & Kernel") ]} : gmap pystr pyval)
    !! py "maintainer" = Some (VStr (py "Hypervisor & Kernel")) ∧
  content_of ascii_lib {[ py "maintainer" := VStr (py "Hypervisor & Kernel") ]} =
    inr (py "* " ++ to_gh_team ascii_lib (py "Hypervisor & Kernel") ++ py " " ++
         py "@xcp-ng-rpms/os-platform-release" ++ nl).
Proof.
  assert (({[ py "maintainer" := VStr (py "Hypervisor & Kernel") ]} : gmap pystr pyval)
            !! py "maintainer" = Some (VStr (py "Hypervisor & Kernel"))) as Hm.
  { vm_compute. reflexivity. }
  split; [exact Hm|].
  apply (proj1 (C5_expected_content ascii_lib _ _ Hm)).
  intros H. vm_compute in H. discriminate H.
Defined.

(** C9 for a maintainer name with a line feed in it. *)
Lemma C9_single_line_witness :
  ({[ py "maintainer" := VStr (py "Xen" ++ nl ++ py "Team") ]} : gmap pystr pyval)
    !! py "maintainer" = Some (VStr (py "Xen" ++ nl ++ py "Team")) ∧
  ∃ line,
    content_of ascii_lib {[ py "maintainer" := VStr (py "Xen" ++ nl ++ py "Team") ]} =
      inr (line ++ nl) ∧ LF ∉ line.
Proof.
  assert (({[ py "maintainer" := VStr (py "Xen" ++ nl ++ py "Team") ]} : gmap pystr pyval)
            !! py "maintainer" = Some (VStr (py "Xen" ++ nl ++ py "Team"))) as Hm.
  { vm_compute. reflexivity. }
  split; [exact Hm|].
  exact (C9_single_line ascii_lib _ _ Hm).
Defined.

(** C8 for two records that differ in a field other than [maintainer]. *)
Lemma C8_content_determined_witness :
  content_of ascii_lib
    {[ py "maintainer" := VStr (py "Security"); py "el_version" := VOther ]} =
  content_of ascii_lib {[ py "maintainer" := VStr (py "Security") ]}.
Proof.
  refine (proj1 (C8_content_determined store_remote ascii_lib (py "Jane")
                   (py "jane@example.org") _ _ _)).
  vm_compute. reflexivity.
Defined.

(** C10 for a record whose maintainer is the empty string. *)
Lemma C10_empty_name_witness :
  ({[ py "maintainer" := VStr [] ]} : gmap pystr pyval) !! py "maintainer" = Some (VStr []) ∧
  to_gh_team ascii_lib [] = py "@xcp-ng-rpms/" ∧
  content_of ascii_lib {[ py "maintainer" := VStr [] ]} =
    inr (py "* @xcp-ng-rpms/ @xcp-ng-rpms/os-platform-release" ++ nl).
Proof.
  assert (({[ py "maintainer" := VStr [] ]} : gmap pystr pyval)
            !! py "maintainer" = Some (VStr [])) as Hm.
  { vm_compute. reflexivity. }
  split; [exact Hm|].
  destruct (C10_empty_name store_remote ascii_lib (py "Jane") (py "jane@example.org") _ Hm)
    as (Hteam & Hcontent & _).
  split; [exact Hteam|exact Hcontent].
Defined.

(** * Further properties *)

(** ** The team handle *)

Section HandleFacts.
Variable L : PyLib.

(** On an ASCII string, [lower] works code point by code point. *)
Lemma str_lower_ascii s :
  Forall (λ c, c < 128) s → str_lower L s = ascii_lower <$> s.
Proof.
  unfold str_lower. generalize s at 2 as whole.
  induction s as [|c s IH]; intros whole Hs; [done|].
  inversion Hs as [|? ? Hc Hs']; subst. cbn.
  rewrite (proj2 (N.ltb_lt _ _) Hc). cbn. f_equal.
  change (concat (imap ((λ i c, if c <? 128 then [ascii_lower c]
                                else uni_lower_at L whole i c) ∘ S) s) = ascii_lower <$> s).
  clear Hs Hc. revert Hs'. generalize 1%nat as k. intros k Hs'.
  (* the index plays no part on ASCII code points *)
  assert (∀ (g : nat → N → pystr),
            (∀ i c, c < 128 → g i c = [ascii_lower c]) →
            concat (imap g s) = ascii_lower <$> s) as Hg.
  { clear IH. induction Hs' as [|d s Hd Hs' IH']; intros g Hgd; [done|].
    cbn. rewrite (Hgd _ _ Hd). cbn. f_equal. apply IH'.
    intros i c' Hc'. by apply Hgd. }
  apply Hg. intros i c' Hc'. cbn. by rewrite (proj2 (N.ltb_lt _ _) Hc').
Qed.

Lemma elem_of_concat {A} (x : A) (ls : list (list A)) :
  x ∈ concat ls ↔ ∃ l, x ∈ l ∧ l ∈ ls.
Proof.
  rewrite list_elem_of_In, in_concat. split.
  - intros (l & Hl & Hx). exists l. by rewrite !list_elem_of_In.
  - intros (l & Hx & Hl). exists l. by rewrite <- !list_elem_of_In.
Qed.

(** What [re.sub] leaves of [s]: hyphens, and word code points of [s]. *)
Lemma re_sub_elem s c :
  c ∈ re_sub_nonword_plus L (py "-") s → c = 45 ∨ (is_word L c = true ∧ c ∈ s).
Proof.
  rewrite re_sub_runs. intros Hc.
  apply elem_of_concat in Hc as (piece & Hc & Hpiece).
  apply list_elem_of_fmap in Hpiece as ([w r] & -> & Hrun).
  pose proof (runs_uniform L s) as Huni. rewrite Forall_forall in Huni.
  destruct (Huni _ Hrun) as [_ Hr]. cbn in Hr.
  unfold hyphenate in Hc. cbn in Hc. destruct w.
  - right. rewrite Forall_forall in Hr. split; [by apply Hr|].
    rewrite <- (runs_concat L s). apply elem_of_concat.
    exists r. split; [done|]. by apply (list_elem_of_fmap_2 (λ run, run.2) _ (true, r)).
  - left. by apply list_elem_of_singleton in Hc.
Qed.

Lemma ascii_lower_word_handle_char c :
  c < 128 → is_word L (ascii_lower c) = true → handle_char (ascii_lower c) = true.
Proof.
  unfold is_word, ascii_lower, ascii_isalnum, handle_char. intros Hc.
  destruct ((65 <=? c) && (c <=? 90)) eqn:Hup.
  - apply andb_prop in Hup as [H1%N.leb_le H2%N.leb_le]. intros _.
    rewrite (proj2 (N.leb_le 97 (c + 32))) by lia.
    by rewrite (proj2 (N.leb_le (c + 32) 122)) by lia.
  - rewrite (proj2 (N.ltb_lt _ _) Hc), Hup. cbn.
    rewrite !orb_false_r. intros H.
    repeat (apply orb_prop in H as [H|H]); rewrite H; cbn; by rewrite ?orb_true_r.
Qed.

Lemma to_gh_team_ascii_chars m :
  Forall (λ c, c < 128) m →
  ∃ suffix, to_gh_team L m = py "@xcp-ng-rpms/" ++ suffix ∧
            Forall (λ c, handle_char c = true) suffix.
Proof.
  intros Hm. eexists. split; [reflexivity|].
  rewrite (str_lower_ascii _ Hm). apply Forall_forall. intros c Hc.
  apply re_sub_elem in Hc as [->|[Hw Hin]]; [done|].
  apply list_elem_of_fmap in Hin as (d & -> & Hd).
  rewrite Forall_forall in Hm. by apply ascii_lower_word_handle_char; [apply Hm|].
Qed.

(** X1. The handle of an ASCII name is the prefix followed by lower-case
    ASCII letters, digits, underscores and hyphens only. *)
Theorem X1_ascii_handle_chars m :
  Forall (λ c, c < 128) m →
  ∃ suffix, to_gh_team L m = py "@xcp-ng-rpms/" ++ suffix ∧
            Forall (λ c, handle_char c = true) suffix.
Proof. apply to_gh_team_ascii_chars. Qed.

(** After the longest non-word prefix comes a word code point, or nothing. *)
Lemma drop_match_nonword_plus s :
  drop (match_nonword_plus L s) s = [] ∨
  ∃ d rest, drop (match_nonword_plus L s) s = d :: rest ∧ is_word L d = true.
Proof.
  induction s as [|c s IH]; [by left|]. cbn [match_nonword_plus].
  destruct (is_word L c) eqn:Hc; [right; by exists c, s|]. exact IH.
Qed.

Lemma hyphen_not_word : is_word L 45 = false.
Proof. reflexivity. Qed.

Lemma no_double_hyphen_cons c s :
  (c = 45 → head s ≠ Some 45) → no_double_hyphen s → no_double_hyphen (c :: s).
Proof.
  intros Hc Hs [|i]; cbn.
  - intros [= ->]. specialize (Hc eq_refl). by destruct s.
  - apply Hs.
Qed.

Lemma re_sub_no_double_hyphen s :
  no_double_hyphen (re_sub_nonword_plus L (py "-") s).
Proof.
  remember (length s) as n eqn:Hn. revert s Hn.
  induction n as [n IH] using lt_wf_ind. intros [|c s] Hn; [by intros i|].
  cbn [length] in Hn. destruct (is_word L c) eqn:Hc.
  - rewrite re_sub_word by done. apply no_double_hyphen_cons.
    + intros ->. by rewrite hyphen_not_word in Hc.
    + apply (IH (length s)); [lia|done].
  - rewrite re_sub_nonword by done. apply no_double_hyphen_cons.
    + intros _. destruct (drop_match_nonword_plus s) as [->|(d & rest & -> & Hd)]; [done|].
      rewrite re_sub_word by done. cbn. intros [= ->]. by rewrite hyphen_not_word in Hd.
    + eapply IH; [|done]. rewrite length_drop. lia.
Qed.

(** X2. No handle holds two hyphens in a row: a run of separators in the
    name, however long, leaves one hyphen, and the prefix has none next to
    where the name starts. *)
Theorem X2_no_double_hyphen m : no_double_hyphen (to_gh_team L m).
Proof.
  unfold to_gh_team.
  change (py "@xcp-ng-rpms/") with [64; 120; 99; 112; 45; 110; 103; 45; 114; 112; 109; 115; 47].
  cbn [app]. pose proof (re_sub_no_double_hyphen (str_lower L m)) as Hs.
  repeat (apply no_double_hyphen_cons; [by cbn|]). exact Hs.
Qed.

(** Substituting again changes nothing: the hyphens that stand for the
    separators are separators themselves, each on its own. *)
Lemma re_sub_idempotent s :
  re_sub_nonword_plus L (py "-") (re_sub_nonword_plus L (py "-") s) =
  re_sub_nonword_plus L (py "-") s.
Proof.
  remember (length s) as n eqn:Hn. revert s Hn.
  induction n as [n IH] using lt_wf_ind. intros [|c s] Hn; [done|].
  cbn [length] in Hn. destruct (is_word L c) eqn:Hc.
  - rewrite !re_sub_word by done. f_equal. apply (IH (length s)); [lia|done].
  - rewrite re_sub_nonword by done.
    change (py "-" ++ ?x) with (45 :: x).
    rewrite re_sub_nonword by apply hyphen_not_word.
    change (py "-" ++ ?x) with (45 :: x). f_equal.
    assert (length (drop (match_nonword_plus L s) s) < n)%nat as Hlt.
    { rewrite length_drop. lia. }
    pose proof (IH _ Hlt _ eq_refl) as IHs.
    destruct (drop_match_nonword_plus s) as [E|(d & rest & E & Hd)]; rewrite E in *.
    + done.
    + rewrite re_sub_word in * by done. cbn [match_nonword_plus]. rewrite Hd. exact IHs.
Qed.

Lemma handle_char_lower c : handle_char c = true → c < 128 ∧ ascii_lower c = c.
Proof.
  unfold handle_char, ascii_lower. intros H.
  assert (c < 128 ∧ ((65 <=? c) && (c <=? 90)) = false) as [? ->]; [|done].
  repeat (apply orb_prop in H as [H|H]).
  - apply andb_prop in H as [H1%N.leb_le H2%N.leb_le]. split; [lia|].
    apply andb_false_iff. right. apply N.leb_gt. lia.
  - apply andb_prop in H as [H1%N.leb_le H2%N.leb_le]. split; [lia|].
    apply andb_false_iff. left. apply N.leb_gt. lia.
  - apply N.eqb_eq in H as ->. by split.
  - apply N.eqb_eq in H as ->. by split.
Qed.

(** X3. Deriving a handle from what follows the prefix of the handle of an
    ASCII name gives the same handle: a name already in handle form is left
    as it is. *)
Theorem X3_handle_of_handle m :
  Forall (λ c, c < 128) m →
  to_gh_team L (drop 13 (to_gh_team L m)) = to_gh_team L m.
Proof.
  intros Hm. destruct (to_gh_team_ascii_chars m Hm) as (suffix & Heq & Hchars).
  rewrite Heq at 1. change (drop 13 (py "@xcp-ng-rpms/" ++ suffix)) with suffix.
  assert (suffix = re_sub_nonword_plus L (py "-") (str_lower L m)) as Hsuffix.
  { unfold to_gh_team in Heq. by apply app_inv_head in Heq. }
  unfold to_gh_team. f_equal.
  assert (str_lower L suffix = suffix) as ->.
  { rewrite str_lower_ascii.
    - rewrite <- (list_fmap_id suffix) at 2. apply Forall_fmap_ext_1.
      eapply Forall_impl; [exact Hchars|]. intros c Hc. by apply handle_char_lower.
    - eapply Forall_impl; [exact Hchars|]. intros c Hc. by apply handle_char_lower. }
  rewrite Hsuffix. apply re_sub_idempotent.
Qed.


(** X4. The fallback owner is recognised by its display name, not by its
    handle: a maintainer under another name with the handle of
    [OS Platform & Release] gets that handle listed twice. *)
Theorem X4_same_handle_listed_twice (rpm : gmap pystr pyval) m :
  rpm !! py "maintainer" = Some (VStr m) →
  m ≠ py "OS Platform & Release" →
  to_gh_team L m = py "@xcp-ng-rpms/os-platform-release" →
  content_of L rpm =
    inr (py "* @xcp-ng-rpms/os-platform-release @xcp-ng-rpms/os-platform-release" ++ nl).
Proof.
  intros Hm Hne Hteam. rewrite (content_of_maintainer L _ _ Hm).
  rewrite decide_False by done. by rewrite Hteam, platform_team_handle.
Qed.

(** A text without line breaks followed by a line feed is one line. *)
Lemma splitlines_from_line acc line rest :
  Forall (λ c, is_linebreak c = false) line →
  splitlines_from acc (line ++ LF :: rest) = (reverse acc ++ line) :: splitlines_from [] rest.
Proof.
  revert acc. induction line as [|c line IH]; intros acc Hline.
  - cbn. rewrite app_nil_r. by destruct rest.
  - inversion Hline as [|? ? Hc Hline']; subst. cbn [app splitlines_from].
    rewrite Hc, IH by done. by rewrite reverse_cons, <- app_assoc.
Qed.

Lemma splitlines_line line :
  Forall (λ c, is_linebreak c = false) line → splitlines (line ++ nl) = [line].
Proof. intros Hline. unfold splitlines, nl. by rewrite splitlines_from_line. Qed.

Lemma to_gh_team_no_linebreak m :
  (∀ c, is_linebreak c = true → is_word L c = false) →
  Forall (λ c, is_linebreak c = false) (to_gh_team L m).
Proof.
  intros Hlb. unfold to_gh_team. apply Forall_app. split.
  - by apply (bool_decide_unpack _).
  - apply Forall_forall. intros c Hc. apply re_sub_elem in Hc as [->|[Hw _]]; [done|].
    destruct (is_linebreak c) eqn:E; [|done]. by rewrite (Hlb _ E) in Hw.
Qed.

(** X11. Where no line-break code point counts as alphanumeric, the
    expected content of a record is one line for [splitlines] too, so [diff]
    hands [unified_diff] a one-line expected side, under the labels
    [current/.github/CODEOWNERS] and [expected/.github/CODEOWNERS]. *)
Theorem X11_diff_expected_one_line (rpm : gmap pystr pyval) m :
  (∀ c, is_linebreak c = true → is_word L c = false) →
  rpm !! py "maintainer" = Some (VStr m) →
  ∃ line,
    content_of L rpm = inr (line ++ nl) ∧
    splitlines (line ++ nl) = [line] ∧
    ∀ current,
      diff L current (line ++ nl) =
        str_join nl (unified_diff L
                       (match current with Some c => splitlines c | None => [] end)
                       [line]
                       (py "current/.github/CODEOWNERS")
                       (py "expected/.github/CODEOWNERS") []).
Proof.
  intros Hlb Hm. rewrite (content_of_maintainer L _ _ Hm).
  eexists. split; [by rewrite app_assoc|].
  assert (Forall (λ c, is_linebreak c = false) (py "* ")) as Hstar
    by by apply (bool_decide_unpack _).
  assert (Forall (λ c, is_linebreak c = false) (py " ")) as Hsp
    by by apply (bool_decide_unpack _).
  pose proof (to_gh_team_no_linebreak m Hlb).
  pose proof (to_gh_team_no_linebreak (py "OS Platform & Release") Hlb).
  match goal with |- splitlines (?l ++ nl) = _ ∧ _ =>
    assert (splitlines (l ++ nl) = [l]) as Hone end.
  { apply splitlines_line.
    destruct (decide (m = py "OS Platform & Release")); rewrite !Forall_app; tauto. }
  split; [exact Hone|]. intros current. unfold diff. by rewrite Hone.
Qed.

End HandleFacts.

(** ** Whole runs *)

(** The ways through one pass, with the trace of each. *)
Ltac pass_cases Hrun :=
  match type of Hrun with
  | reconcile_branch ?R ?L ?U ?E ?pkg ?repo ?content ?force ?ok ?branch ?w = _ =>
      let Hrd := fresh "Hrd" in
      let Ht := fresh "Ht" in
      destruct (read_codeowners R repo branch w) as [[rd w1] t1] eqn:Hrd;
      pose proof (read_codeowners_trace R repo branch w) as Ht;
      rewrite Hrd in Ht; cbn in Ht; subst t1;
      destruct rd as [e|[[current|] token]];
      [ rewrite (reconcile_branch_raise R L U E _ _ _ _ _ _ _ _ _ _ Hrd) in Hrun
      | destruct (decide (current = content)) as [->|Hne];
        [ rewrite (reconcile_branch_matching R L U E _ _ _ _ _ _ _ _ _ _ Hrd) in Hrun
        | destruct force;
          [ rewrite (reconcile_branch_update R L U E _ _ _ _ _ _ _ _ _ _ Hrd Hne) in Hrun;
            destruct (update_file R repo CODEOWNERS (MESSAGE U E) content token branch w1)
              as [[e|[]] w2] eqn:Hwr
          | rewrite (reconcile_branch_conflict R L U E _ _ _ _ _ _ _ _ _ _ Hrd Hne) in Hrun ] ]
      | rewrite (reconcile_branch_absent R L U E _ _ _ _ _ _ _ _ _ _ Hrd) in Hrun;
        destruct (create_file R repo CODEOWNERS (MESSAGE U E) content branch w1)
          as [[e|[]] w2] eqn:Hwr ];
      injection Hrun as <- <- <-
  end.

Section RunFacts.
Context {Repo W : Type}.
Variable R : Remote Repo W.
Variable L : PyLib.
Variables USER EMAIL : pystr.

(** The trace of the loop over the packages is made of the traces of the
    calls of [set_gh_code_owners] it got to, one per package from the first
    on; it got to all of them when it returned. *)
Lemma for_pkgs_traces force rpms gh_repos pkgs ok w r w' t :
  for_pkgs R L USER EMAIL force rpms gh_repos pkgs ok w = (r, w', t) →
  ∃ ts,
    t = concat ts ∧
    Forall2 (λ pkg tr, ∃ repo rpm wi ri wi',
               gh_repos !! pkg = Some repo ∧ rpms !! pkg = Some rpm ∧
               set_gh_code_owners R L USER EMAIL pkg repo rpm force wi = (ri, wi', tr))
            (take (length ts) pkgs) ts ∧
    (length ts ≤ length pkgs)%nat ∧
    (∀ ok', r = inr ok' → length ts = length pkgs).
Proof.
  revert ok w r w' t. induction pkgs as [|pkg pkgs IH]; intros ok w r w' t.
  - intros [= <- <- <-]. exists []. repeat split; [constructor|done].
  - rewrite for_pkgs_cons_run. unfold getitem.
    destruct (gh_repos !! pkg) as [repo|] eqn:Hrepo.
    2:{ intros [= <- <- <-]. exists []. repeat split; [constructor|cbn; lia|done]. }
    destruct (rpms !! pkg) as [rpm|] eqn:Hrpm.
    2:{ intros [= <- <- <-]. exists []. repeat split; [constructor|cbn; lia|done]. }
    destruct (set_gh_code_owners _ _ _ _ _ _ _ _ w) as [[[e|r1] w1] t1] eqn:Hset.
    { intros [= <- <- <-]. exists [t1]. cbn. rewrite app_nil_r.
      repeat split; [|lia|done]. constructor; [|constructor]. by eexists _, _, _, _, _. }
    destruct (for_pkgs _ _ _ _ _ _ _ pkgs _ w1) as [[r2 w2] t2] eqn:Hrest.
    intros [= <- <- <-]. destruct (IH _ _ _ _ _ Hrest) as (ts & -> & Hts & Hlen & Hall).
    exists (t1 :: ts). cbn. repeat split.
    + constructor; [|done]. by eexists _, _, _, _, _.
    + lia.
    + intros ok' Hr. by rewrite (Hall _ Hr).
Qed.

(** What holds of the events of every call of [set_gh_code_owners] on a
    package of the two mappings holds of the events of the loop. *)
Lemma for_pkgs_Forall (P : event Repo → Prop) force rpms gh_repos pkgs ok w r w' t :
  (∀ pkg repo rpm wi ri wi' tr,
     gh_repos !! pkg = Some repo → rpms !! pkg = Some rpm →
     set_gh_code_owners R L USER EMAIL pkg repo rpm force wi = (ri, wi', tr) →
     Forall P tr) →
  for_pkgs R L USER EMAIL force rpms gh_repos pkgs ok w = (r, w', t) →
  Forall P t.
Proof.
  intros HP Hrun. destruct (for_pkgs_traces _ _ _ _ _ _ _ _ _ Hrun) as (ts & -> & Hts & _).
  clear Hrun. apply Forall_concat. revert Hts. generalize (take (length ts) pkgs).
  intros l Hts. induction Hts as [|pkg tr l ts Hx _ IH]; [constructor|].
  destruct Hx as (repo & rpm & wi & ri & wi' & Hrepo & Hrpm & Hset).
  constructor; [by eapply HP|exact IH].
Qed.

(** X5. A record without a [maintainer] key makes [set_gh_code_owners]
    raise [KeyError], and one whose maintainer is not a string
    [AttributeError], in both cases before any remote call or message: the
    trace is empty and the platform is as it was. *)
Theorem X5_malformed_record (pkg : pystr) (repo : Repo) (rpm : gmap pystr pyval)
    (force : bool) (w : W) :
  (rpm !! py "maintainer" = None →
     set_gh_code_owners R L USER EMAIL pkg repo rpm force w =
       (inl (KeyError (py "maintainer")), w, [])) ∧
  (rpm !! py "maintainer" = Some VOther →
     set_gh_code_owners R L USER EMAIL pkg repo rpm force w = (inl AttributeError, w, [])).
Proof.
  rewrite set_gh_code_owners_run. unfold content_of, owners_of.
  split; intros ->; [done|].
  by rewrite bool_decide_eq_false_2 by (intros H%list_elem_of_singleton; done).
Qed.


(** One call of [set_gh_code_owners], by its events: none when the record
    is unusable; otherwise one read first, at most one write, every call on
    the ownership file of [master] in the repository given, a write only of
    the expected content under the commit message; no update without force;
    with force nothing on the standard output and no conflict; as many
    diffs printed as conflicts reported. *)
Lemma set_gh_code_owners_events (pkg : pystr) (repo : Repo) (rpm : gmap pystr pyval)
    (force : bool) (w : W) r w' t :
  set_gh_code_owners R L USER EMAIL pkg repo rpm force w = (r, w', t) →
  (t = [] ∧ ∃ e, r = inl e ∧ content_of L rpm = inl e) ∨
  ∃ content rest,
    content_of L rpm = inr content ∧
    t = Get_contents repo CODEOWNERS (py "master") :: rest ∧
    Forall (λ e, is_read e = false) rest ∧
    (length (writes t) ≤ 1)%nat ∧
    Forall (λ e, is_read e || is_write e = true →
                 call_on repo (MESSAGE USER EMAIL) content e) t ∧
    (force = false → Forall (λ e, is_update e = false) t) ∧
    (force = true → Forall (λ e, is_stdout e = false) t ∧
                    Forall (λ x, clean x = true) (ended t)) ∧
    length (filter (λ e, is_stdout e = true) t) =
      length (filter (λ x, clean x = false) (ended t)).
Proof.
  rewrite set_gh_code_owners_run. destruct (content_of L rpm) as [x|content].
  { intros [= <- <- <-]. left. eauto. }
  intros Hrun. right. exists content.
  pass_cases Hrun; eexists; (split; [done|]); (split; [reflexivity|]);
    cbn; repeat split; repeat constructor; cbn; try done; try lia;
    intros; repeat constructor; done.
Qed.


Lemma ended_concat (ts : list (list (event Repo))) :
  ended (concat ts) = concat (ended <$> ts).
Proof.
  induction ts as [|tr ts IH]; [done|].
  change (ended (tr ++ concat ts) = ended tr ++ concat (ended <$> ts)).
  by rewrite ended_app, IH.
Qed.

(** Counting over the loop: at most one read per package and exactly one
    when the loop returns, no more writes than reads, as many diffs printed
    as conflicts reported. *)
Lemma for_pkgs_counts force rpms gh_repos pkgs ok w r w' t :
  for_pkgs R L USER EMAIL force rpms gh_repos pkgs ok w = (r, w', t) →
  (length (filter (λ e, is_read e = true) t) ≤ length pkgs)%nat ∧
  (length (writes t) ≤ length (filter (λ e, is_read e = true) t))%nat ∧
  length (filter (λ e, is_stdout e = true) t) =
    length (filter (λ x, clean x = false) (ended t)) ∧
  (∀ ok', r = inr ok' → length (filter (λ e, is_read e = true) t) = length pkgs).
Proof.
  revert ok w r w' t. induction pkgs as [|pkg pkgs IH]; intros ok w r w' t.
  - by intros [= <- <- <-].
  - rewrite for_pkgs_cons_run. unfold getitem.
    destruct (gh_repos !! pkg) as [repo|] eqn:Hrepo.
    2:{ intros [= <- <- <-]. cbn. split_and!; [lia|done..]. }
    destruct (rpms !! pkg) as [rpm|] eqn:Hrpm.
    2:{ intros [= <- <- <-]. cbn. split_and!; [lia|done..]. }
    destruct (set_gh_code_owners _ _ _ _ _ _ _ _ w) as [[r1 w1] t1] eqn:Hset.
    assert ((length (filter (λ e, is_read e = true) t1) ≤ 1)%nat ∧
            (length (writes t1) ≤ length (filter (λ e, is_read e = true) t1))%nat ∧
            length (filter (λ e, is_stdout e = true) t1) =
              length (filter (λ x, clean x = false) (ended t1)) ∧
            (∀ ok1, r1 = inr ok1 → length (filter (λ e, is_read e = true) t1) = 1%nat))
      as (Hr1 & Hw1 & Hs1 & Hc1).
    { destruct (set_gh_code_owners_events _ _ _ _ _ _ _ _ Hset)
        as [[-> (e & -> & _)]|(content & rest & _ & -> & Hrest & Hwr & _ & _ & _ & Hst)].
      - cbn. split_and!; [lia|done..].
      - assert (filter (λ e, is_read e = true) rest = []) as Hnone.
        { clear -Hrest. induction Hrest as [|e rest He _ IH']; [done|].
          rewrite filter_cons_False; [done|]. by rewrite He. }
        rewrite filter_cons_True by done. rewrite Hnone. cbn [length].
        split_and!; [lia|exact Hwr|exact Hst|done]. }
    destruct r1 as [e|ok1].
    { intros [= <- <- <-]. cbn [length]. split_and!; [lia|done|done|done]. }
    destruct (for_pkgs _ _ _ _ _ _ _ pkgs _ w1) as [[r2 w2] t2] eqn:Hrest.
    destruct (IH _ _ _ _ _ Hrest) as (Hr2 & Hw2 & Hs2 & Hc2).
    intros [= <- <- <-]. unfold writes in *.
    rewrite ended_app, !filter_app, !length_app. cbn [length].
    split_and!; [lia|lia|lia|].
    intros ok' Hok. rewrite (Hc1 _ eq_refl), (Hc2 _ Hok). done.
Qed.

(** X6. A record without a usable maintainer ends the run with status 1 at
    its package: the writes made for the packages before it stay, nothing
    is read or written for it or for the packages after it. *)
Theorem X6_malformed_record_stops_run force rpms gh_repos before pkg after
    (repo : Repo) rpm e ok (w w1 : W) t0 :
  set_iter L (dom gh_repos ∩ dom rpms) = before ++ pkg :: after →
  gh_repos !! pkg = Some repo → rpms !! pkg = Some rpm →
  content_of L rpm = inl e →
  for_pkgs R L USER EMAIL force rpms gh_repos before true w = (inr ok, w1, t0) →
  main R L USER EMAIL force rpms gh_repos w = (1%Z, w1, t0).
Proof.
  intros Hiter Hrepo Hrpm Hc Hbefore. unfold main.
  rewrite Hiter, for_pkgs_app_run, Hbefore, for_pkgs_cons_run. unfold getitem.
  rewrite Hrepo, Hrpm, set_gh_code_owners_run, Hc. cbn. by rewrite app_nil_r.
Qed.

(** X7. Every remote call of a run is on the ownership file of the branch
    [master] of a repository that is listed on the platform under the name
    of a package of the registry, and every write sends the expected
    content of that package's record under the commit message: no other
    repository, branch or path is read or written. *)
Theorem X7_calls_stay_in_scope (force : bool) (rpms : gmap pystr (gmap pystr pyval))
    (gh_repos : gmap pystr Repo) (w : W)
    status w' t e :
  main R L USER EMAIL force rpms gh_repos w = (status, w', t) →
  e ∈ t → is_read e || is_write e = true →
  ∃ pkg repo rpm content,
    pkg ∈ dom gh_repos ∩ dom rpms ∧
    gh_repos !! pkg = Some repo ∧ rpms !! pkg = Some rpm ∧
    content_of L rpm = inr content ∧
    call_on repo (MESSAGE USER EMAIL) content e.
Proof.
  unfold main.
  destruct (for_pkgs _ _ _ _ _ _ _ _ _ w) as [[r w1] t1] eqn:Hrun.
  intros [= <- <- <-] He Hcall.
  assert (Forall (λ e, is_read e || is_write e = true →
            ∃ pkg repo rpm content,
              pkg ∈ dom gh_repos ∩ dom rpms ∧
              gh_repos !! pkg = Some repo ∧ rpms !! pkg = Some rpm ∧
              content_of L rpm = inr content ∧
              call_on repo (MESSAGE USER EMAIL) content e) t1) as Hall.
  { eapply for_pkgs_Forall; [|exact Hrun]. clear.
    intros pkg repo rpm wi ri wi' tr Hrepo Hrpm Hset.
    destruct (set_gh_code_owners_events _ _ _ _ _ _ _ _ Hset)
      as [[-> _]|(content & rest & Hc & _ & _ & _ & Hcalls & _)]; [constructor|].
    eapply Forall_impl; [exact Hcalls|]. intros x Hx Hcall.
    exists pkg, repo, rpm, content. split_and!; try done; [|by apply Hx].
    apply elem_of_intersection. split; apply elem_of_dom; eauto. }
  rewrite Forall_forall in Hall. by apply Hall.
Qed.

(** X8. Without force a run never calls [update_file]: a file that is
    there is left as it is, whatever it holds. *)
Theorem X8_no_update_without_force (rpms : gmap pystr (gmap pystr pyval))
    (gh_repos : gmap pystr Repo) (w : W) status w' t :
  main R L USER EMAIL false rpms gh_repos w = (status, w', t) →
  Forall (λ e, is_update e = false) t.
Proof.
  unfold main.
  destruct (for_pkgs _ _ _ _ _ _ _ _ _ w) as [[r w1] t1] eqn:Hrun.
  intros [= <- <- <-]. eapply for_pkgs_Forall; [|exact Hrun]. clear.
  intros pkg repo rpm wi ri wi' tr Hrepo Hrpm Hset.
  destruct (set_gh_code_owners_events _ _ _ _ _ _ _ _ Hset)
    as [[-> _]|(content & rest & _ & _ & _ & _ & _ & Hno & _)]; [constructor|].
  by apply Hno.
Qed.

(** X9. With force a run reports no conflict and prints nothing on the
    standard output; it exits with status 0 exactly when the loop over the
    packages returns, and with status 1 only on an exception. *)
Theorem X9_force_never_conflicts (rpms : gmap pystr (gmap pystr pyval))
    (gh_repos : gmap pystr Repo) (w : W) status w' t :
  main R L USER EMAIL true rpms gh_repos w = (status, w', t) →
  Forall (λ x, x.2 ≠ ConflictReported) (ended t) ∧
  Forall (λ e, is_stdout e = false) t ∧
  (status = 0%Z ↔
     ∃ ok, for_pkgs R L USER EMAIL true rpms gh_repos
             (set_iter L (dom gh_repos ∩ dom rpms)) true w = (inr ok, w', t)).
Proof.
  unfold main.
  destruct (for_pkgs _ _ _ _ _ _ _ _ _ w) as [[r w1] t1] eqn:Hrun.
  intros [= <- <- <-].
  assert (Forall (λ e, is_stdout e = false) t1) as Hquiet.
  { eapply for_pkgs_Forall; [|exact Hrun]. clear.
    intros pkg repo rpm wi ri wi' tr Hrepo Hrpm Hset.
    destruct (set_gh_code_owners_events _ _ _ _ _ _ _ _ Hset)
      as [[-> _]|(content & rest & _ & _ & _ & _ & _ & _ & Hf & _)]; [constructor|].
    by apply Hf. }
  assert (Forall (λ x, clean x = true) (ended t1)) as Hclean.
  { destruct (for_pkgs_traces _ _ _ _ _ _ _ _ _ Hrun) as (ts & -> & Hts & _).
    rewrite ended_concat. apply Forall_concat, Forall_fmap.
    clear Hrun Hquiet. revert Hts. generalize (take (length ts) (set_iter L (dom gh_repos ∩ dom rpms))).
    intros l Hts. induction Hts as [|pkg tr l ts Hx _ IH]; [constructor|].
    destruct Hx as (repo & rpm & wi & ri & wi' & Hrepo & Hrpm & Hset).
    constructor; [|exact IH]. cbn.
    destruct (set_gh_code_owners_events _ _ _ _ _ _ _ _ Hset)
      as [[-> _]|(content & rest & _ & _ & _ & _ & _ & _ & Hf & _)]; [constructor|].
    by apply Hf. }
  split; [|split; [done|]].
  - eapply Forall_impl; [exact Hclean|]. intros x. unfold clean.
    by case_bool_decide.
  - split.
    + destruct r as [e|ok]; [done|]. eauto.
    + intros (ok & [= ->]). apply for_pkgs_ended in Hrun as [_ ->]. cbn.
      assert (forallb clean (ended t1) = true) as ->; [|done].
      apply Is_true_eq_true, forallb_True. eapply Forall_impl; [exact Hclean|].
      intros x Hx. by rewrite Hx.
Qed.


(** X14. A run prints one diff on the standard output for each branch it
    reports as a conflict, and nothing else there. *)
Theorem X14_one_diff_per_conflict (force : bool) (rpms : gmap pystr (gmap pystr pyval))
    (gh_repos : gmap pystr Repo) (w : W)
    status w' t :
  main R L USER EMAIL force rpms gh_repos w = (status, w', t) →
  length (filter (λ e, is_stdout e = true) t) =
    length (filter (λ x, x.2 = ConflictReported) (ended t)).
Proof.
  unfold main.
  destruct (for_pkgs _ _ _ _ _ _ _ _ _ w) as [[r w1] t1] eqn:Hrun.
  intros [= <- <- <-].
  destruct (for_pkgs_counts _ _ _ _ _ _ _ _ _ Hrun) as (_ & _ & -> & _).
  f_equal. apply list_filter_iff. intros x. unfold clean. by case_bool_decide.
Qed.


(** *** A second run *)

(** Where reading changes nothing, the read block leaves the platform as
    it found it. *)
Lemma read_codeowners_pure (repo : Repo) branch (w : W) rd w1 t1 :
  isolates_repos R →
  read_codeowners R repo branch w = (rd, w1, t1) → w1 = w.
Proof.
  intros [Hpure _ _]. rewrite read_codeowners_run.
  pose proof (Hpure repo CODEOWNERS branch w) as Hp.
  destruct (get_contents R repo CODEOWNERS branch w) as [x w0].
  cbn in Hp. by intros [= _ <- _].
Qed.

(** A call of [set_gh_code_owners] that returns leaves what is read from
    the other repositories as it was. *)
Lemma set_gh_code_owners_frame (pkg : pystr) (repo : Repo) (rpm : gmap pystr pyval)
    (force : bool) (w : W) ok w' t repo' path' ref' :
  isolates_repos R →
  set_gh_code_owners R L USER EMAIL pkg repo rpm force w = (inr ok, w', t) →
  repo' ≠ repo →
  (get_contents R repo' path' ref' w').1 = (get_contents R repo' path' ref' w).1.
Proof.
  intros HR. rewrite set_gh_code_owners_run.
  destruct (content_of L rpm) as [x|content]; [done|].
  intros Hrun Hother.
  remember (inr ok) as r eqn:Hr in Hrun.
  pass_cases Hrun; try discriminate Hr;
    pose proof (read_codeowners_pure _ _ _ _ _ _ HR Hrd) as ->; try done.
  - by eapply (update_frame R HR).
  - by eapply (create_frame R HR).
Qed.

Lemma for_pkgs_frame (force : bool) (rpms : gmap pystr (gmap pystr pyval))
    (gh_repos : gmap pystr Repo) pkgs ok (w : W) ok' w' t repo' path' ref' :
  isolates_repos R →
  for_pkgs R L USER EMAIL force rpms gh_repos pkgs ok w = (inr ok', w', t) →
  (∀ pkg, pkg ∈ pkgs → gh_repos !! pkg ≠ Some repo') →
  (get_contents R repo' path' ref' w').1 = (get_contents R repo' path' ref' w).1.
Proof.
  intros HR. revert ok w t. induction pkgs as [|pkg pkgs IH]; intros ok w t.
  - by intros [= _ <- _].
  - rewrite for_pkgs_cons_run. unfold getitem.
    destruct (gh_repos !! pkg) as [repo|] eqn:Hrepo; [|done].
    destruct (rpms !! pkg) as [rpm|]; [|done].
    destruct (set_gh_code_owners _ _ _ _ _ _ _ _ w) as [[[e|r1] w1] t1] eqn:Hset; [done|].
    destruct (for_pkgs _ _ _ _ _ _ _ pkgs _ w1) as [[r2 w2] t2] eqn:Hrest.
    intros [= -> <- _] Hother.
    rewrite (IH _ _ _ Hrest) by (intros p Hp; apply Hother; by right).
    eapply set_gh_code_owners_frame; [done..|].
    intros ->. by apply (Hother pkg); [left|].
Qed.


(** A call of [set_gh_code_owners] that returns [True] leaves the package
    in sync, on a remote that keeps what is written. *)
Lemma set_gh_code_owners_syncs (pkg : pystr) (repo : Repo) (rpm : gmap pystr pyval)
    (force : bool) (w : W) w' t :
  keeps_writes R → isolates_repos R →
  set_gh_code_owners R L USER EMAIL pkg repo rpm force w = (inr true, w', t) →
  ∃ content token,
    content_of L rpm = inr content ∧
    (get_contents R repo CODEOWNERS (py "master") w').1 =
      inr {| sha := inr token; decoded_content := inr content |}.
Proof.
  intros HK HR. rewrite set_gh_code_owners_run.
  destruct (content_of L rpm) as [x|content]; [done|].
  intros Hrun. exists content.
  remember (inr true) as r eqn:Hr in Hrun.
  pass_cases Hrun; try discriminate Hr.
  - destruct (read_codeowners_present _ _ _ _ _ _ _ _ Hrd) as ([s c] & Hget & Hs & Hc).
    pose proof (read_codeowners_pure _ _ _ _ _ _ HR Hrd) as ->.
    cbn in Hs, Hc. subst s c. exists token. by rewrite Hget.
  - destruct (read_after_update R HK _ _ _ _ _ _ _ _ Hwr) as (s & w'' & Hget).
    exists s. by rewrite Hget.
  - destruct (read_after_create R HK _ _ _ _ _ _ _ Hwr) as (s & w'' & Hget).
    exists s. by rewrite Hget.
Qed.

(** On a package in sync, [set_gh_code_owners] reads, finds the file
    already matching, and leaves the platform as it is. *)
Lemma set_gh_code_owners_in_sync (pkg : pystr) (repo : Repo) (rpm : gmap pystr pyval)
    (force : bool) (w : W) content token :
  isolates_repos R →
  content_of L rpm = inr content →
  (get_contents R repo CODEOWNERS (py "master") w).1 =
    inr {| sha := inr token; decoded_content := inr content |} →
  set_gh_code_owners R L USER EMAIL pkg repo rpm force w =
    (inr true, w,
     [Get_contents repo CODEOWNERS (py "master");
      Stderr (pkg ++ py " CODEOWNERS is already OK in " ++ py "master" ++ nl);
      Ended pkg (py "master") AlreadyMatching]).
Proof.
  intros HR Hc Hget. rewrite set_gh_code_owners_run, Hc.
  assert (read_codeowners R repo (py "master") w =
            (inr (Some content, token), w, [Get_contents repo CODEOWNERS (py "master")]))
    as Hrd.
  { rewrite read_codeowners_run.
    pose proof (read_pure R HR repo CODEOWNERS (py "master") w) as Hp.
    destruct (get_contents R repo CODEOWNERS (py "master") w) as [x w0].
    cbn in Hp, Hget. by subst. }
  by rewrite (reconcile_branch_matching R L USER EMAIL _ _ _ _ _ _ _ _ _ _ Hrd).
Qed.

(** After a loop that returned [True], every package it went over is in
    sync: what a later pass does to its own repository does not undo what
    an earlier one did to another. *)
Lemma for_pkgs_syncs (force : bool) (rpms : gmap pystr (gmap pystr pyval))
    (gh_repos : gmap pystr Repo) pkgs ok (w : W) w' t :
  keeps_writes R → isolates_repos R →
  (∀ p1 p2 repo, gh_repos !! p1 = Some repo → gh_repos !! p2 = Some repo → p1 = p2) →
  NoDup pkgs →
  for_pkgs R L USER EMAIL force rpms gh_repos pkgs ok w = (inr true, w', t) →
  ∀ pkg, pkg ∈ pkgs → in_sync R L rpms gh_repos w' pkg.
Proof.
  intros HK HR Hinj. revert ok w t. induction pkgs as [|pkg pkgs IH]; intros ok w t Hnodup.
  - intros _ p Hp. by apply elem_of_nil in Hp.
  - apply NoDup_cons in Hnodup as [Hfresh Hnodup].
    rewrite for_pkgs_cons_run. unfold getitem.
    destruct (gh_repos !! pkg) as [repo|] eqn:Hrepo; [|done].
    destruct (rpms !! pkg) as [rpm|] eqn:Hrpm; [|done].
    destruct (set_gh_code_owners _ _ _ _ _ _ _ _ w) as [[[e|r1] w1] t1] eqn:Hset; [done|].
    destruct (for_pkgs _ _ _ _ _ _ _ pkgs _ w1) as [[r2 w2] t2] eqn:Hrest.
    intros [= -> <- _] p Hp.
    pose proof (for_pkgs_ended _ _ _ _ _ _ _ _ _ _ _ _ _ Hrest) as [_ Hok]. cbn in Hok.
    assert (r1 = true) as -> by (destruct ok, r1; done).
    apply elem_of_cons in Hp as [->|Hp]; [|by eapply IH].
    destruct (set_gh_code_owners_syncs _ _ _ _ _ _ _ HK HR Hset) as (content & token & Hc & Hget).
    exists repo, rpm, content, token. split_and!; try done.
    rewrite <- Hget. eapply for_pkgs_frame; [done..|].
    intros p Hp Hsame. by rewrite (Hinj _ _ _ Hsame Hrepo) in Hp.
Qed.

(** Over packages in sync the loop reads each file, finds it matching,
    writes nothing and leaves the platform as it is. *)
Lemma for_pkgs_in_sync (force : bool) (rpms : gmap pystr (gmap pystr pyval))
    (gh_repos : gmap pystr Repo) pkgs ok (w : W) :
  isolates_repos R →
  (∀ pkg, pkg ∈ pkgs → in_sync R L rpms gh_repos w pkg) →
  ∃ t, for_pkgs R L USER EMAIL force rpms gh_repos pkgs ok w = (inr ok, w, t) ∧
       writes t = [] ∧
       ended t = (λ pkg, (pkg, py "master", AlreadyMatching)) <$> pkgs.
Proof.
  intros HR. revert ok. induction pkgs as [|pkg pkgs IH]; intros ok Hsync.
  - by exists [].
  - destruct (Hsync pkg) as (repo & rpm & content & token & Hrepo & Hrpm & Hc & Hget);
      [by left|].
    destruct (IH (ok && true)) as (t & Hrest & Hw & He); [intros p Hp; apply Hsync; by right|].
    eexists. rewrite for_pkgs_cons_run. unfold getitem. rewrite Hrepo, Hrpm.
    rewrite (set_gh_code_owners_in_sync _ _ _ _ _ _ _ HR Hc Hget), Hrest.
    rewrite andb_true_r. split; [reflexivity|]. split.
    + unfold writes in *. rewrite filter_app, Hw. reflexivity.
    + rewrite ended_app, He. reflexivity.
Qed.

(** X10. On a remote that keeps what is written, where reading changes
    nothing and a write to one repository leaves the others alone, and
    with one repository per name: after a run that exited with status 0, a
    second run, with or without force, writes nothing, finds every branch
    already matching, leaves the platform as it is and exits with status
    0. *)
Theorem X10_second_run_changes_nothing (force : bool)
    (rpms : gmap pystr (gmap pystr pyval)) (gh_repos : gmap pystr Repo) (w : W) w1 t1 :
  keeps_writes R → isolates_repos R →
  (∀ X, set_iter L X ≡ₚ elements X) →
  (∀ p1 p2 repo, gh_repos !! p1 = Some repo → gh_repos !! p2 = Some repo → p1 = p2) →
  main R L USER EMAIL force rpms gh_repos w = (0%Z, w1, t1) →
  ∀ force', ∃ t2,
    main R L USER EMAIL force' rpms gh_repos w1 = (0%Z, w1, t2) ∧
    writes t2 = [] ∧
    ended t2 = (λ pkg, (pkg, py "master", AlreadyMatching)) <$>
               set_iter L (dom gh_repos ∩ dom rpms).
Proof.
  intros HK HR Hiter Hinj. unfold main.
  set (pkgs := set_iter L (dom gh_repos ∩ dom rpms)).
  assert (NoDup pkgs) as Hnodup.
  { unfold pkgs. rewrite Hiter. apply NoDup_elements. }
  destruct (for_pkgs _ _ _ _ _ _ _ pkgs _ w) as [[r w'] t] eqn:Hrun.
  intros [= Hst -> ->] force'.
  destruct r as [e|[|]]; try done.
  pose proof (for_pkgs_syncs _ _ _ _ _ _ _ _ HK HR Hinj Hnodup Hrun) as Hsync.
  destruct (for_pkgs_in_sync force' rpms gh_repos pkgs true w1 HR Hsync) as (t2 & -> & Hw & He).
  by exists t2.
Qed.

End RunFacts.

(** ** The commit message *)

(** X12. With a committer name and e-mail free of line breaks, as the
    assertions at start-up require, the commit message is three lines: the
    subject, an empty line, and the sign-off trailer with the name and the
    e-mail between angle brackets. *)
Theorem X12_commit_message_lines USER EMAIL :
  Forall (λ c, is_linebreak c = false) USER →
  Forall (λ c, is_linebreak c = false) EMAIL →
  splitlines (MESSAGE USER EMAIL) =
    [py "Set team owner"; []; py "Signed-off-by: " ++ USER ++ py " <" ++ EMAIL ++ py ">"].
Proof.
  intros HU HE. unfold MESSAGE, splitlines, nl. cbn [app].
  rewrite splitlines_from_line by by apply (bool_decide_unpack _).
  assert (∀ rest, splitlines_from [] (LF :: rest) = [] :: splitlines_from [] rest) as ->.
  { intros rest. apply (splitlines_from_line [] [] rest). constructor. }
  assert (py "Signed-off-by: " ++ USER ++ py " <" ++ EMAIL ++ py ">" ++ [LF] =
          (py "Signed-off-by: " ++ USER ++ py " <" ++ EMAIL ++ py ">") ++ LF :: []) as ->.
  { by rewrite <- !app_assoc. }
  rewrite splitlines_from_line; [done|].
  rewrite !Forall_app. split_and!; try done; by apply (bool_decide_unpack _).
Qed.

(** ** The further properties on a registry of one package *)

Lemma store_isolates : isolates_repos store_remote.
Proof.
  split.
  - intros repo path ref w. cbn. by destruct (w !! (repo, ref, path)) as [[s c]|].
  - intros repo path message content branch w w' repo' path' ref'. cbn.
    destruct (w !! (repo, branch, path)) as [[s c]|]; [done|].
    intros [= <-] Hne. rewrite lookup_insert_ne by congruence.
    by destruct (w !! (repo', ref', path')) as [[s c]|].
  - intros repo path message content token branch w w' repo' path' ref'. cbn.
    destruct (w !! (repo, branch, path)) as [[s c]|]; [|done].
    case_bool_decide; [|done].
    intros [= <-] Hne. rewrite lookup_insert_ne by congruence.
    by destruct (w !! (repo', ref', path')) as [[s' c']|].
Qed.

Lemma ascii_lib_linebreaks c : is_linebreak c = true → is_word ascii_lib c = false.
Proof.
  intros Hc. apply bool_decide_eq_true in Hc.
  repeat (apply elem_of_cons in Hc as [->|Hc]; [reflexivity|]).
  by apply elem_of_nil in Hc.
Qed.

Lemma demo_repos_one_per_name p1 p2 (repo : N) :
  demo_repos !! p1 = Some repo → demo_repos !! p2 = Some repo → p1 = p2.
Proof.
  unfold demo_repos. intros [<- _]%lookup_singleton_Some [<- _]%lookup_singleton_Some. done.
Qed.

(** X1 for the maintainer [Hypervisor & Kernel]. *)
Lemma X1_ascii_handle_chars_witness :
  ∃ suffix, to_gh_team ascii_lib (py "Hypervisor & Kernel") = py "@xcp-ng-rpms/" ++ suffix ∧
            Forall (λ c, handle_char c = true) suffix.
Proof.
  apply X1_ascii_handle_chars. apply (bool_decide_unpack _). vm_compute. exact I.
Defined.

(** X3 for the maintainer [Hypervisor & Kernel]. *)
Lemma X3_handle_of_handle_witness :
  to_gh_team ascii_lib (drop 13 (to_gh_team ascii_lib (py "Hypervisor & Kernel"))) =
  to_gh_team ascii_lib (py "Hypervisor & Kernel").
Proof.
  apply X3_handle_of_handle. apply (bool_decide_unpack _). vm_compute. exact I.
Defined.

(** X4 for a maintainer named like the fallback owner, in lower case. *)
Lemma X4_same_handle_listed_twice_witness :
  content_of ascii_lib {[ py "maintainer" := VStr (py "os platform & release") ]} =
    inr (py "* @xcp-ng-rpms/os-platform-release @xcp-ng-rpms/os-platform-release" ++ nl).
Proof.
  apply (X4_same_handle_listed_twice ascii_lib _ (py "os platform & release")).
  - vm_compute. reflexivity.
  - intros H. vm_compute in H. discriminate H.
  - vm_compute. reflexivity.
Defined.

(** X11 for the maintainer [Hypervisor & Kernel], the library knowing ASCII
    only. *)
Lemma X11_diff_expected_one_line_witness :
  ∃ line,
    content_of ascii_lib {[ py "maintainer" := VStr (py "Hypervisor & Kernel") ]} =
      inr (line ++ nl) ∧
    splitlines (line ++ nl) = [line].
Proof.
  destruct (X11_diff_expected_one_line ascii_lib
              {[ py "maintainer" := VStr (py "Hypervisor & Kernel") ]}
              (py "Hypervisor & Kernel") ascii_lib_linebreaks)
    as (line & Hc & Hone & _).
  - vm_compute. reflexivity.
  - by exists line.
Defined.

(** X12 for a committer. *)
Lemma X12_commit_message_lines_witness :
  splitlines (MESSAGE (py "Jane") (py "jane@example.org")) =
    [py "Set team owner"; [];
     py "Signed-off-by: " ++ py "Jane" ++ py " <" ++ py "jane@example.org" ++ py ">"].
Proof.
  apply X12_commit_message_lines; apply (bool_decide_unpack _); vm_compute; exact I.
Defined.

(** X6 for a registry whose one record has no maintainer. *)
Lemma X6_malformed_record_stops_run_witness :
  main store_remote ascii_lib (py "Jane") (py "jane@example.org") false
    {[ py "xen" := ∅ ]} demo_repos ∅ = (1%Z, ∅, []).
Proof.
  apply (X6_malformed_record_stops_run store_remote ascii_lib (py "Jane")
           (py "jane@example.org") false {[ py "xen" := ∅ ]} demo_repos
           [] (py "xen") [] 7 ∅ (KeyError (py "maintainer")) true ∅ ∅ []).
  - vm_compute. reflexivity.
  - vm_compute. reflexivity.
  - vm_compute. reflexivity.
  - reflexivity.
  - reflexivity.
Defined.

(** X7 for the write of a run on the empty platform. *)
Lemma X7_calls_stay_in_scope_witness :
  ∃ pkg repo rpm content,
    pkg ∈ dom demo_repos ∩ dom demo_rpms ∧
    demo_repos !! pkg = Some repo ∧ demo_rpms !! pkg = Some rpm ∧
    content_of ascii_lib rpm = inr content ∧
    call_on repo (MESSAGE (py "Jane") (py "jane@example.org")) content
      (Create_file 7 CODEOWNERS (MESSAGE (py "Jane") (py "jane@example.org"))
         demo_content (py "master")).
Proof.
  set (run := main store_remote ascii_lib (py "Jane") (py "jane@example.org") false
                demo_rpms demo_repos ∅).
  assert (run = (run.1.1, run.1.2, run.2)) as Hrun by by destruct run as [[? ?] ?].
  apply (X7_calls_stay_in_scope store_remote ascii_lib (py "Jane") (py "jane@example.org")
           false demo_rpms demo_repos ∅ run.1.1 run.1.2 run.2 _ Hrun).
  - vm_compute. do 2 apply list_elem_of_further. apply list_elem_of_here.
  - reflexivity.
Defined.

(** X8 on the diverged platform. *)
Lemma X8_no_update_without_force_witness :
  Forall (λ e, is_update e = false)
    (main store_remote ascii_lib (py "Jane") (py "jane@example.org") false
       demo_rpms demo_repos demo_diverged).2.
Proof.
  set (run := main store_remote ascii_lib (py "Jane") (py "jane@example.org") false
                demo_rpms demo_repos demo_diverged).
  assert (run = (run.1.1, run.1.2, run.2)) as Hrun by by destruct run as [[? ?] ?].
  exact (X8_no_update_without_force store_remote ascii_lib (py "Jane")
           (py "jane@example.org") demo_rpms demo_repos demo_diverged _ _ _ Hrun).
Defined.

(** X9 on the diverged platform: the forced run exits with status 0. *)
Lemma X9_force_never_conflicts_witness :
  let run := main store_remote ascii_lib (py "Jane") (py "jane@example.org") true
               demo_rpms demo_repos demo_diverged in
  Forall (λ x, x.2 ≠ ConflictReported) (ended run.2) ∧
  Forall (λ e, is_stdout e = false) run.2 ∧
  run.1.1 = 0%Z.
Proof.
  intros run.
  assert (run = (run.1.1, run.1.2, run.2)) as Hrun by by destruct run as [[? ?] ?].
  destruct (X9_force_never_conflicts store_remote ascii_lib (py "Jane")
              (py "jane@example.org") demo_rpms demo_repos demo_diverged _ _ _ Hrun)
    as (Hclean & Hquiet & _).
  split_and!; [exact Hclean|exact Hquiet|]. vm_compute. reflexivity.
Defined.

(** X10: a run on the empty platform, then a forced one. *)
Lemma X10_second_run_changes_nothing_witness :
  let first := main store_remote ascii_lib (py "Jane") (py "jane@example.org") false
                 demo_rpms demo_repos ∅ in
  first.1.1 = 0%Z ∧
  ∃ t2,
    main store_remote ascii_lib (py "Jane") (py "jane@example.org") true
      demo_rpms demo_repos first.1.2 = (0%Z, first.1.2, t2) ∧
    writes t2 = [] ∧
    ended t2 = (λ pkg, (pkg, py "master", AlreadyMatching)) <$>
               set_iter ascii_lib (dom demo_repos ∩ dom demo_rpms).
Proof.
  intros first.
  assert (first.1.1 = 0%Z) as Hstatus by (vm_compute; reflexivity).
  assert (first = (0%Z, first.1.2, first.2)) as Hfirst.
  { rewrite <- Hstatus. by destruct first as [[? ?] ?]. }
  split; [exact Hstatus|].
  exact (X10_second_run_changes_nothing store_remote ascii_lib (py "Jane")
           (py "jane@example.org") false demo_rpms demo_repos ∅ first.1.2 first.2
           store_keeps_writes store_isolates (λ X, reflexivity (elements X))
           demo_repos_one_per_name Hfirst true).
Defined.


(** X14 on the diverged platform: one conflict, one diff. *)
Lemma X14_one_diff_per_conflict_witness :
  let run := main store_remote ascii_lib (py "Jane") (py "jane@example.org") false
               demo_rpms demo_repos demo_diverged in
  length (filter (λ e, is_stdout e = true) run.2) =
    length (filter (λ x, x.2 = ConflictReported) (ended run.2)).
Proof.
  intros run.
  assert (run = (run.1.1, run.1.2, run.2)) as Hrun by by destruct run as [[? ?] ?].
  exact (X14_one_diff_per_conflict store_remote ascii_lib (py "Jane")
           (py "jane@example.org") false demo_rpms demo_repos demo_diverged _ _ _ Hrun).
Defined.
